(** * TikTok bulk downloader: the request validator, the batch job runner,
      the response headers and the cleanup task of [main.py]

    Python values are embedded as follows.
    - [str] is the [string] of its UTF-8 encoding: an ASCII character is
      one byte. Equality, emptiness and [endswith] with a suffix that starts
      with an ASCII character are the same on the encoding as on the text.
    - [int] counters of the summary are [nat] (they only count up from 0).
    - An exception is a value of an enumeration; a function that may raise
      returns a [result].
    - [set[str]] is [gset string], a Python list is a [list].
    - The standard library and yt-dlp are the boundary of the program:
      [str.strip], [str.lower], [urlparse] and [ydl.download] are section
      variables of the general theorems. [Str.strip], [Str.ascii_lower]
      and [Urllib.urlparse] are executable versions used to evaluate the
      validator on concrete requests. *)

From stdpp Require Import base decidable option list sets gmap strings.
From Stdlib Require Import Ascii DecimalString Lia.

#[local] Open Scope stdpp_scope.
#[local] Open Scope nat_scope.

(** ** Results of code that may raise *)

Inductive result (E A : Type) : Type :=
| Ok (a : A)
| Raise (e : E).
Arguments Ok {E A} a.
Arguments Raise {E A} e.

(** ** Python string methods used by the validator *)

Module Str.

(** White space as [str.strip()] sees it, on the UTF-8 encoding: the
    characters for which [str.isspace] holds are U+0009 to U+000D, U+001C
    to U+0020, U+0085, U+00A0, U+1680, U+2000 to U+200A, U+2028, U+2029,
    U+202F, U+205F and U+3000. They take one, two or three bytes. *)
Definition space1 (a : nat) : bool :=
  ((9 <=? a) && (a <=? 13)) || ((28 <=? a) && (a <=? 32)).

Definition space2 (a b : nat) : bool :=
  (a =? 194) && ((b =? 133) || (b =? 160)).

Definition space3 (a b c : nat) : bool :=
  ((a =? 225) && (b =? 154) && (c =? 128))
  || ((a =? 226) && (b =? 128) &&
      (((128 <=? c) && (c <=? 138)) || (c =? 168) || (c =? 169) || (c =? 175)))
  || ((a =? 226) && (b =? 129) && (c =? 159))
  || ((a =? 227) && (b =? 128) && (c =? 128)).

(** [s.lstrip()] *)
Fixpoint lstrip (s : string) : string :=
  match s with
  | EmptyString => EmptyString
  | String a s1 =>
      if space1 (nat_of_ascii a) then lstrip s1
      else match s1 with
           | EmptyString => s
           | String b s2 =>
               if space2 (nat_of_ascii a) (nat_of_ascii b) then lstrip s2
               else match s2 with
                    | EmptyString => s
                    | String c s3 =>
                        if space3 (nat_of_ascii a) (nat_of_ascii b) (nat_of_ascii c)
                        then lstrip s3 else s
                    end
           end
  end.

(** The same from the other end, on the string read backwards: the
    bytes of a character then come last byte first. *)
Fixpoint lstrip_reversed (s : string) : string :=
  match s with
  | EmptyString => EmptyString
  | String a s1 =>
      if space1 (nat_of_ascii a) then lstrip_reversed s1
      else match s1 with
           | EmptyString => s
           | String b s2 =>
               if space2 (nat_of_ascii b) (nat_of_ascii a) then lstrip_reversed s2
               else match s2 with
                    | EmptyString => s
                    | String c s3 =>
                        if space3 (nat_of_ascii c) (nat_of_ascii b) (nat_of_ascii a)
                        then lstrip_reversed s3 else s
                    end
           end
  end.

(** [s.rstrip()] *)
Definition rstrip (s : string) : string :=
  String.rev (lstrip_reversed (String.rev s)).

(** [s.strip()] *)
Definition strip (s : string) : string := rstrip (lstrip s).

Definition is_upper (c : ascii) : bool :=
  let n := nat_of_ascii c in (65 <=? n) && (n <=? 90).
Definition is_lower (c : ascii) : bool :=
  let n := nat_of_ascii c in (97 <=? n) && (n <=? 122).
Definition is_digit (c : ascii) : bool :=
  let n := nat_of_ascii c in (48 <=? n) && (n <=? 57).
Definition isalpha (c : ascii) : bool := is_upper c || is_lower c.

Definition lower_char (c : ascii) : ascii :=
  if is_upper c then ascii_of_nat (nat_of_ascii c + 32) else c.

(** [s.lower()] on ASCII text: the letters A to Z are folded, every
    other byte is kept. (Where the text is not ASCII, [str.lower] folds
    more; the validator below takes [str.lower] as it is.) *)
Fixpoint ascii_lower (s : string) : string :=
  match s with
  | EmptyString => EmptyString
  | String c s' => String (lower_char c) (ascii_lower s')
  end.

(** [s.endswith(suffix)] *)
Fixpoint endswith (s suffix : string) : bool :=
  if String.eqb s suffix then true
  else match s with
       | EmptyString => false
       | String _ s' => endswith s' suffix
       end.

(** [not s] for a string: true on the empty string only. *)
Definition is_empty (s : string) : bool :=
  match s with EmptyString => true | String _ _ => false end.

(** [c in s] *)
Fixpoint contains (c : ascii) (s : string) : bool :=
  match s with
  | EmptyString => false
  | String d s' => if Ascii.eqb c d then true else contains c s'
  end.

(** [s.partition(c)]: the text before the first [c] and the text after
    it; [None] when [c] does not occur (Python then returns [(s, '', '')]). *)
Fixpoint partition (c : ascii) (s : string) : option (string * string) :=
  match s with
  | EmptyString => None
  | String d s' =>
      if Ascii.eqb c d then Some (EmptyString, s')
      else match partition c s' with
           | Some (before, after) => Some (String d before, after)
           | None => None
           end
  end.

(** [s.rpartition(c)[2]]: the text after the last [c], all of [s] when
    [c] does not occur. *)
Fixpoint after_last (c : ascii) (s : string) : string :=
  match s with
  | EmptyString => EmptyString
  | String d s' =>
      if contains c s' then after_last c s'
      else if Ascii.eqb c d then s' else s
  end.

Fixpoint all_chars (p : ascii -> bool) (s : string) : bool :=
  match s with
  | EmptyString => true
  | String c s' => p c && all_chars p s'
  end.

Fixpoint filter_chars (p : ascii -> bool) (s : string) : string :=
  match s with
  | EmptyString => EmptyString
  | String c s' => if p c then String c (filter_chars p s') else filter_chars p s'
  end.

Fixpoint drop_while (p : ascii -> bool) (s : string) : string :=
  match s with
  | EmptyString => EmptyString
  | String c s' => if p c then drop_while p s' else s
  end.

Fixpoint take_until (p : ascii -> bool) (s : string) : string :=
  match s with
  | EmptyString => EmptyString
  | String c s' => if p c then EmptyString else String c (take_until p s')
  end.

End Str.

(** ** Module constants *)

Definition MAX_URLS : nat := 100.

Definition TIKTOK_DOMAINS : list string :=
  ["tiktok.com"; "www.tiktok.com"; "m.tiktok.com"; "vm.tiktok.com"].

(** ** [urllib.parse.urlparse]: what the validator reads of its result *)

(** The two attributes of a parse result the validator looks at.
    [hostname] is [None] when the URL has no host. *)
Record ParseResult : Type := mkParseResult {
  scheme : string;
  hostname : option string
}.

(** The [ValueError]s of the validator, one constructor per [raise]
    (and one for a [ValueError] raised inside [urlparse] itself, which
    leaves [_ensure_valid_url] the same way). *)
Inductive ValueError : Type :=
| NoUrlGiven          (* validate_urls: nothing left after cleaning *)
| TooManyUrls         (* validate_urls: more than MAX_URLS entries left *)
| SchemeNotHttp       (* _ensure_valid_url: scheme not http or https *)
| NotTikTokDomain     (* _ensure_valid_url: host not on the allow-list *)
| UrlParseFailure.    (* raised by urlparse, e.g. Invalid IPv6 URL *)

(** An executable model of [urlparse(url)] of the standard library,
    following [urlsplit] for the scheme and the network location and the
    [hostname] property for the host, for URLs of ASCII characters. The
    validity checks of a bracketed IPv6 literal and of non-ASCII hosts
    are not part of the model. *)
Module Urllib.

Definition is_c0_or_space (c : ascii) : bool := nat_of_ascii c <=? 32.

Definition is_unsafe (c : ascii) : bool :=
  match c with "009" | "010" | "013" => true | _ => false end%char.

Definition is_scheme_char (c : ascii) : bool :=
  Str.isalpha c || Str.is_digit c ||
  match c with "+" | "-" | "." => true | _ => false end%char.

Definition is_netloc_end (c : ascii) : bool :=
  match c with "/" | "?" | "#" => true | _ => false end%char.

(** The scheme and the rest of the URL after it. *)
Definition split_scheme (url : string) : string * string :=
  match Str.partition ":" url with
  | Some (String c0 before', rest) =>
      if Str.isalpha c0 && Str.all_chars is_scheme_char (String c0 before')
      then (Str.ascii_lower (String c0 before'), rest)
      else (EmptyString, url)
  | _ => (EmptyString, url)
  end.

(** The network location: what follows a leading [//] up to the first
    of [/], [?] and [#]. *)
Definition split_netloc (rest : string) : string :=
  match rest with
  | String "/" (String "/" after) => Str.take_until is_netloc_end after
  | _ => EmptyString
  end.

(** The [hostname] property of a parse result with this [netloc]. *)
Definition hostname_of (netloc : string) : option string :=
  let hostinfo := Str.after_last "@" netloc in
  let host :=
    match Str.partition "[" hostinfo with
    | Some (_, bracketed) =>
        match Str.partition "]" bracketed with
        | Some (h, _) => h
        | None => bracketed
        end
    | None =>
        match Str.partition ":" hostinfo with
        | Some (h, _) => h
        | None => hostinfo
        end
    end in
  if Str.is_empty host then None
  else match Str.partition "%" host with
       | Some (h, zone) => Some (Str.ascii_lower h +:+ String "%" zone)
       | None => Some (Str.ascii_lower host)
       end.

Definition urlparse (url : string) : result ValueError ParseResult :=
  let url := Str.filter_chars (fun c => negb (is_unsafe c))
               (Str.drop_while is_c0_or_space url) in
  let '(sch, rest) := split_scheme url in
  let netloc := split_netloc rest in
  if xorb (Str.contains "[" netloc) (Str.contains "]" netloc)
  then Raise UrlParseFailure
  else Ok (mkParseResult sch (hostname_of netloc)).

End Urllib.

(** ** [DownloadRequest]: the [urls] field validator *)

Section Validator.

(** [str.strip], [str.lower] and [urlparse], as the validator calls them. *)
Variable strip : string -> string.
Variable lower : string -> string.
Variable urlparse : string -> result ValueError ParseResult.

(** [hostname == domain or hostname.endswith(f".{domain}")] *)
Definition host_matches (host domain : string) : bool :=
  String.eqb host domain || Str.endswith host ("." +:+ domain).

Definition _ensure_valid_url (url : string) : result ValueError string :=
  match urlparse url with
  | Raise e => Raise e
  | Ok parsed =>
      if negb (String.eqb (scheme parsed) "http" || String.eqb (scheme parsed) "https")
      then Raise SchemeNotHttp
      else
        let host := lower (default EmptyString (hostname parsed)) in
        if negb (existsb (host_matches host) TIKTOK_DOMAINS)
        then Raise NotTikTokDomain
        else Ok url
  end.

(** The [for raw in urls] loop, with its two accumulators. A [raise]
    in the body leaves the loop at once. *)
Fixpoint validate_loop (urls : list string) (cleaned : list string)
    (seen : gset string) : result ValueError (list string) :=
  match urls with
  | [] => Ok cleaned
  | raw :: rest =>
      let url := strip raw in
      if Str.is_empty url then validate_loop rest cleaned seen
      else
        match _ensure_valid_url url with
        | Raise e => Raise e
        | Ok normalized =>
            if decide (normalized ∈ seen)
            then validate_loop rest cleaned seen
            else validate_loop rest (cleaned ++ [normalized])
                               ({[normalized]} ∪ seen)
        end
  end.

Definition validate_urls (urls : list string) : result ValueError (list string) :=
  match validate_loop urls [] ∅ with
  | Raise e => Raise e
  | Ok cleaned =>
      if Nat.eqb (length cleaned) 0 then Raise NoUrlGiven
      else if MAX_URLS <? length cleaned then Raise TooManyUrls
      else Ok cleaned
  end.

End Validator.

Example validate_one :
  validate_urls Str.strip Str.ascii_lower Urllib.urlparse ["  https://www.tiktok.com/@user/video/123 "; "   "]
  = Ok ["https://www.tiktok.com/@user/video/123"].
Proof. vm_compute. reflexivity. Qed.

(** ** The job summary *)

Record FailedEntry : Type := mkFailed {
  url : string;
  reason : string
}.

Record Summary : Type := mkSummary {
  job_id : string;
  total : nat;
  success : nat;
  failed : list FailedEntry;
  generated_at : string
}.

(** ** The job workspace *)

(** What a regular file holds: bytes written by the downloader, or the
    report, whose text [json.dumps(summary, ensure_ascii=False, indent=2)]
    is represented by the summary it serialises. *)
Inductive FileData : Type :=
| MediaData (bytes : string)
| ReportJson (summary : Summary).

(** What a path inside the workspace can be; [is_file] follows symbolic
    links, so a link counts as what it points to. *)
#[warning="-register-all"]
Inductive Node : Type :=
| RegularFile (data : FileData)
| Directory (children : gmap string Node)
| OtherNode.                       (* socket, FIFO, dangling link *)

(** [path.is_file()] *)
Definition is_file (n : Node) : bool :=
  match n with RegularFile _ => true | _ => false end.

(** [summary["success"] += 1] *)
Definition incr_success (s : Summary) : Summary :=
  mkSummary (job_id s) (total s) (success s + 1) (failed s) (generated_at s).

(** [summary["failed"].append({"url": url, "reason": reason})] *)
Definition append_failed (s : Summary) (u r : string) : Summary :=
  mkSummary (job_id s) (total s) (success s) (failed s ++ [mkFailed u r])
            (generated_at s).

(** ** [json.dumps] of an object with integer values, default separators *)

Module Json.

Definition dquote : string := String "034"%char EmptyString.

(** An [int] in decimal. *)
Definition of_nat (n : nat) : string := NilEmpty.string_of_uint (Nat.to_uint n).

(** One [key: value] member; the key separator is a colon and a space. *)
Definition member (kv : string * nat) : string :=
  dquote +:+ kv.1 +:+ dquote +:+ ": " +:+ of_nat kv.2.

(** The members joined by the item separator, a comma and a space. *)
Fixpoint join_members (kvs : list (string * nat)) : string :=
  match kvs with
  | [] => EmptyString
  | [kv] => member kv
  | kv :: rest => member kv +:+ ", " +:+ join_members rest
  end.

(** [json.dumps(obj)] for a dict of [str] keys (plain ASCII, nothing to
    escape) and [int] values, with [indent=None] and the default
    [separators=(', ', ': ')]. *)
Definition dumps (kvs : list (string * nat)) : string :=
  "{" +:+ join_members kvs +:+ "}".

End Json.

(** ** The batch job runner *)

(** What [ydl.download([url])] does to its caller: it returns, or it
    raises an instance of [Exception] ([DownloadError] is one). [str(exc)]
    is the message carried. *)
Inductive ExcClass : Type := DownloadError | OtherException.

Inductive Outcome : Type :=
| Returned
| Raised (cls : ExcClass) (msg : string).

(** The values the job draws from its environment. *)
Record JobEnv : Type := mkJobEnv {
  uuid4_hex : string;        (* uuid.uuid4().hex *)
  gettempdir : string;       (* tempfile.gettempdir() *)
  mkdtemp_name : string;     (* name of the directory mkdtemp created *)
  utcnow_iso : string        (* datetime.now(timezone.utc).isoformat() *)
}.

(** The one exception [_run_download_job] raises itself: the
    [RuntimeError] of the empty workspace. *)
Inductive JobError : Type := NoVideoDownloaded.

Definition report_name : string := "download_report.json".

(** What the job returns: [(zip_file_path, summary, work_dir)]. *)
Record JobReturn : Type := mkJobReturn {
  zip_file_path : string;
  job_summary : Summary;
  work_dir : string
}.

Section JobRunner.

(** State of the [YoutubeDL] object. *)
Variable Ydl : Type.

(** The part of the world a job reads and writes: the downloader, the
    entries of the job's own directory, and for each archive made in the
    temporary directory, by path, the tree it was made from. *)
Record World : Type := mkWorld {
  ydl : Ydl;
  work_files : gmap string Node;
  zip_files : gmap string (gmap string Node)
}.

(** [ydl.download([url])]: an outcome and its effect on the world. *)
Variable download : string -> World -> Outcome * World.

(** The [for url in urls] loop with its [try]/[except]. Both handlers
    record the failure the same way. *)
Fixpoint fetch_loop (urls : list string) (summary : Summary) (w : World)
    : Summary * World :=
  match urls with
  | [] => (summary, w)
  | u :: rest =>
      let '(o, w') := download u w in
      match o with
      | Returned => fetch_loop rest (incr_success summary) w'
      | Raised DownloadError msg => fetch_loop rest (append_failed summary u msg) w'
      | Raised OtherException msg => fetch_loop rest (append_failed summary u msg) w'
      end
  end.

(** [[path for path in work_dir.iterdir() if path.is_file()]] *)
Definition downloaded_files (w : World) : list (string * Node) :=
  filter (λ p, is_file p.2 = true) (map_to_list (work_files w)).

Definition initial_summary (env : JobEnv) (urls : list string) : Summary :=
  mkSummary (uuid4_hex env) (length urls) 0 [] (utcnow_iso env).

(** [tempfile.mkdtemp(prefix="tiktok_dl_")]: the job gets a new, empty
    directory. *)
Definition mkdtemp (w : World) : World :=
  mkWorld (ydl w) ∅ (zip_files w).

(** [(work_dir / name).write_text(...)]: the file is created, or replaced. *)
Definition write_text (name : string) (data : FileData) (w : World) : World :=
  mkWorld (ydl w) (<[name := RegularFile data]> (work_files w)) (zip_files w).

(** [shutil.make_archive(zip_base, "zip", root_dir=work_dir)]: an archive
    appears at [zip_path]; it is recorded with the tree of the job's
    directory it was made from, as that tree is at the call. Which entries
    of the tree the zip writer stores is the library's affair and is not
    modelled. *)
Definition make_archive (zip_path : string) (w : World) : World :=
  mkWorld (ydl w) (work_files w) (<[zip_path := work_files w]> (zip_files w)).

(** [_run_download_job(urls)]. [w0] is the world when the job starts,
    with the [YoutubeDL] object built from the job's options. Failures of
    [mkdtemp], [write_text] and [make_archive] are not modelled. *)
Definition _run_download_job (env : JobEnv) (urls : list string) (w0 : World)
    : result JobError JobReturn * World :=
  let work_dir := gettempdir env +:+ "/" +:+ mkdtemp_name env in
  let '(summary, w) := fetch_loop urls (initial_summary env urls) (mkdtemp w0) in
  match downloaded_files w with
  | [] => (Raise NoVideoDownloaded, w)
  | _ :: _ =>
      let w := write_text report_name (ReportJson summary) w in
      let zip_path := work_dir +:+ ".zip" in
      let w := make_archive zip_path w in
      (Ok (mkJobReturn zip_path summary work_dir), w)
  end.

End JobRunner.

Arguments mkWorld {Ydl} ydl work_files zip_files.
Arguments ydl {Ydl} w.
Arguments work_files {Ydl} w.
Arguments zip_files {Ydl} w.
Arguments fetch_loop {Ydl} download urls summary w.
Arguments downloaded_files {Ydl} w.
Arguments mkdtemp {Ydl} w.
Arguments write_text {Ydl} name data w.
Arguments make_archive {Ydl} zip_path w.
Arguments _run_download_job {Ydl} download env urls w0.

(** ** The endpoint [POST /api/download] *)

(** What the handler gives back: an [HTTPException] (whose detail is the
    message of the error it reports) or the streaming response, with the
    paths handed to the background cleanup task. *)
Inductive Response : Type :=
| HTTPException (status_code : nat) (detail : JobError)
| StreamingResponse (file : string) (media_type : string)
    (headers : list (string * string)) (cleanup : list string).

(** [headers[name]] *)
Fixpoint header (name : string) (headers : list (string * string)) : option string :=
  match headers with
  | [] => None
  | (k, v) :: rest => if String.eqb k name then Some v else header name rest
  end.

Definition content_disposition (s : Summary) : string :=
  "attachment; filename=" +:+ Json.dquote +:+ "tiktok_videos_" +:+ job_id s
    +:+ ".zip" +:+ Json.dquote.

Definition download_summary (s : Summary) : string :=
  Json.dumps [("total", total s); ("success", success s);
              ("failed", length (failed s))].

Definition response_headers (s : Summary) : list (string * string) :=
  [("Content-Disposition", content_disposition s);
   ("X-Job-Id", job_id s);
   ("X-Download-Summary", download_summary s)].

Section Endpoint.

Variable Ydl : Type.
Variable download : string -> World Ydl -> Outcome * World Ydl.

(** [download_videos(payload, background_tasks)] on the validated
    [payload.urls]. The job of this model raises its own [RuntimeError]
    only (failures of the library calls inside the job are outside the
    model), so of the three handlers the one for [RuntimeError] is the
    one represented; the handlers for [ValueError] (status 400) and for
    any other exception (status 500, a fixed detail) answer failures the
    model does not produce. *)
Definition download_videos (env : JobEnv) (urls : list string) (w0 : World Ydl)
    : Response * World Ydl :=
  match _run_download_job download env urls w0 with
  | (Raise exc, w) => (HTTPException 500 exc, w)
  | (Ok r, w) =>
      (StreamingResponse (zip_file_path r) "application/zip"
         (response_headers (job_summary r))
         [zip_file_path r; work_dir r], w)
  end.

End Endpoint.

Arguments download_videos {Ydl} download env urls w0.

(** ** The cleanup task *)

Section Cleanup.

(** The file system and the exceptions ([Exception] instances) its
    operations may raise. *)
Variables (FS Exc : Type).

(** A command: it returns or raises, and leaves a file system. *)
Definition Cmd (A : Type) : Type := FS -> result Exc A * FS.

Definition ret {A} (a : A) : Cmd A := fun fs => (Ok a, fs).

Definition bind {A B} (m : Cmd A) (k : A -> Cmd B) : Cmd B :=
  fun fs =>
    match m fs with
    | (Ok a, fs') => k a fs'
    | (Raise e, fs') => (Raise e, fs')
    end.

(** [try: body / except Exception: handler] *)
Definition try_except {A} (body : Cmd A) (handler : Exc -> Cmd A) : Cmd A :=
  fun fs =>
    match body fs with
    | (Ok a, fs') => (Ok a, fs')
    | (Raise e, fs') => handler e fs'
    end.

(** [for x in xs: body(x)]: an exception in the body ends the loop. *)
Fixpoint for_each {A} (xs : list A) (body : A -> Cmd unit) : Cmd unit :=
  match xs with
  | [] => ret tt
  | x :: rest => bind (body x) (fun _ => for_each rest body)
  end.

(** The four calls of the loop body. *)
Variable path_is_dir : string -> Cmd bool.          (* path.is_dir() *)
Variable rmtree : string -> Cmd unit.               (* shutil.rmtree(path, ignore_errors=True) *)
Variable path_exists : string -> Cmd bool.          (* path.exists() *)
Variable unlink : string -> Cmd unit.               (* path.unlink(missing_ok=True) *)

(** The body of the [try]. *)
Definition delete_path (path : string) : Cmd unit :=
  bind (path_is_dir path) (fun d =>
    if d then rmtree path
    else bind (path_exists path) (fun e =>
      if e then unlink path else ret tt)).

Definition _cleanup_paths (paths : list string) : Cmd unit :=
  for_each paths (fun path =>
    try_except (delete_path path) (fun _ => ret tt)).

End Cleanup.

Arguments ret {FS Exc A} a.
Arguments bind {FS Exc A B} m k.
Arguments try_except {FS Exc A} body handler.
Arguments for_each {FS Exc A} xs body.

(** ** Streaming the archive *)

(** The errors [file.read(size)] raises on its argument. *)
Inductive ReadError : Type :=
| ReadOverflowError      (* the size does not fit a C ssize_t *)
| ReadValueError         (* the size is below -1 *)
| ReadMemoryError.       (* no buffer of that size can be had *)

(** [file.read(size)] on a binary file opened with [open("rb")], given
    what is left of the file: the bytes read and what is left after them.
    [ssize_max] is the largest C [ssize_t] of the build and [alloc_max]
    the largest size for which the buffer of a read is granted. A size
    outside the range of [ssize_t] raises [OverflowError], a size below
    -1 raises [ValueError], -1 reads to the end of the file, a size above
    [alloc_max] raises [MemoryError]; otherwise up to [size] bytes come
    back, fewer only when the file ends first. *)
Definition file_read (ssize_max alloc_max : Z) (size : Z) (rest : list Byte.byte)
    : result ReadError (list Byte.byte * list Byte.byte) :=
  if ((size <? - ssize_max - 1) || (ssize_max <? size))%Z then Raise ReadOverflowError
  else if (size <? -1)%Z then Raise ReadValueError
  else if (size =? -1)%Z then Ok (rest, [])
  else if (alloc_max <? size)%Z then Raise ReadMemoryError
  else Ok (take (Z.to_nat size) rest, drop (Z.to_nat size) rest).

(** The [while True] loop of [_iter_file_chunks]: the chunks it yields
    from what is left of the file and the error that ends it, if one
    does, in at most [fuel] reads ([None] when the reads do not
    suffice). *)
Fixpoint iter_file_chunks_loop (fuel : nat) (ssize_max alloc_max chunk_size : Z)
    (rest : list Byte.byte)
    : option (list (list Byte.byte) * option ReadError) :=
  match fuel with
  | 0 => None
  | S fuel' =>
      match file_read ssize_max alloc_max chunk_size rest with
      | Raise e => Some ([], Some e)
      | Ok ([], _) => Some ([], None)
      | Ok (data, rest') =>
          match iter_file_chunks_loop fuel' ssize_max alloc_max chunk_size rest' with
          | Some (chunks, e) => Some (data :: chunks, e)
          | None => None
          end
      end
  end.

(** The default of the [chunk_size] argument. *)
Definition DEFAULT_CHUNK_SIZE : Z := 1024 * 1024.

(** [_iter_file_chunks(file_path, chunk_size)], on the contents of the
    file: the chunks the generator yields, and the error raised to its
    consumer if a read raises. One read more than the file has bytes is
    allowed for. *)
Definition _iter_file_chunks (ssize_max alloc_max : Z) (contents : list Byte.byte)
    (chunk_size : Z) : option (list (list Byte.byte) * option ReadError) :=
  iter_file_chunks_loop (S (length contents)) ssize_max alloc_max chunk_size contents.

(** ** The options of the downloader *)

(** A value of the options dict. *)
Inductive OptionValue : Type :=
| OptBool (b : bool)
| OptInt (n : nat)
| OptStr (s : string).

(** The two module constants read from the environment at import. *)
Record Settings : Type := mkSettings {
  COOKIES_PATH : option string;     (* os.environ.get("TIKTOK_COOKIES_PATH") *)
  DOWNLOAD_FORMAT : string          (* os.environ.get("TIKTOK_VIDEO_FORMAT", default) *)
}.

Definition DEFAULT_FORMAT : string := "bv*+ba/bestvideo+bestaudio/best".

Definition load_settings (environ : gmap string string) : Settings :=
  mkSettings (environ !! "TIKTOK_COOKIES_PATH")
             (default DEFAULT_FORMAT (environ !! "TIKTOK_VIDEO_FORMAT")).

Section DownloaderOptions.

(** [Path(p).expanduser()] as a string, and [Path.exists]. *)
Variable expanduser : string -> string.
Variable file_exists : string -> bool.

(** The dict literal at the head of [_build_yt_dlp_options]. *)
Definition base_options (settings : Settings) (output_template : string)
    : gmap string OptionValue :=
  <["ignore_no_formats_error" := OptBool true]>
  (<["noplaylist" := OptBool true]>
  (<["geo_bypass" := OptBool true]>
  (<["noprogress" := OptBool true]>
  (<["merge_output_format" := OptStr "mp4"]>
  (<["format" := OptStr (DOWNLOAD_FORMAT settings)]>
  (<["retries" := OptInt 3]>
  (<["outtmpl" := OptStr output_template]>
  (<["no_warnings" := OptBool true]>
  (<["quiet" := OptBool true]> ∅))))))))).

(** [_build_yt_dlp_options(output_template)]: the options, and the cookie
    files the logger was warned about. *)
Definition _build_yt_dlp_options (settings : Settings) (output_template : string)
    : gmap string OptionValue * list string :=
  let options := base_options settings output_template in
  match COOKIES_PATH settings with
  | Some path =>
      if Str.is_empty path then (options, [])
      else
        let cookie_file := expanduser path in
        if file_exists cookie_file
        then (<["cookies" := OptStr cookie_file]> options, [])
        else (options, [cookie_file])
  | None => (options, [])
  end.

End DownloaderOptions.

(** * Vocabulary of the properties *)

(** The acceptance condition in the words of its description: the host,
    lower-cased for a comparison without regard to case, is an
    allow-listed domain or ends with a dot followed by one. *)
Definition allow_listed (lower : string -> string) (host : string) : Prop :=
  exists domain, domain ∈ TIKTOK_DOMAINS /\
    (lower host = domain \/ exists sub, lower host = sub +:+ "." +:+ domain).

Definition http_or_https (s : string) : Prop := s = "http" \/ s = "https".

(** A URL the description calls valid, on what [urlparse] reports of it. *)
Definition valid_url (lower : string -> string)
    (urlparse : string -> result ValueError ParseResult)
    (url : string) : Prop :=
  exists parsed, urlparse url = Ok parsed /\
    http_or_https (scheme parsed) /\
    allow_listed lower (default EmptyString (hostname parsed)).

(** The scheme as the URL spells it: the text before its first colon. *)
Definition scheme_as_written (url : string) : option string :=
  fst <$> Str.partition ":" url.

(** The non-blank entries of a request, trimmed, in input order: what is
    left of [urls] once the loop has dropped the blank ones. *)
Definition entries (strip : string -> string) (urls : list string) : list string :=
  filter (λ u, Str.is_empty u = false) (map strip urls).

(** Each element once, at the place of its first occurrence. *)
Fixpoint first_seen (l : list string) : list string :=
  match l with
  | [] => []
  | x :: rest => x :: filter (λ y, y ≠ x) (first_seen rest)
  end.

(** Position of the first occurrence of [x] in [l] ([length l] if none). *)
Fixpoint first_index (x : string) (l : list string) : nat :=
  match l with
  | [] => 0
  | y :: rest => if decide (x = y) then 0 else S (first_index x rest)
  end.

(** A non-blank entry that [_ensure_valid_url] lets through. *)
Definition accepted (lower : string -> string)
    (urlparse : string -> result ValueError ParseResult)
    (u : string) : Prop :=
  _ensure_valid_url lower urlparse u = Ok u.

#[global] Instance ValueError_eq_dec : EqDecision ValueError.
Proof. solve_decision. Defined.

#[global] Instance result_eq_dec {E A : Type} `{EqDecision E, EqDecision A} :
  EqDecision (result E A).
Proof. solve_decision. Defined.

#[global] Instance accepted_dec lower urlparse u :
  Decision (accepted lower urlparse u).
Proof. unfold accepted. apply _. Defined.

(** ** Vocabulary of the job runner *)

Definition is_returned (o : Outcome) : bool :=
  match o with Returned => true | Raised _ _ => false end.

(** The entry a fetch of [u] with outcome [o] adds to the failed list. *)
Definition failure_of (uo : string * Outcome) : option FailedEntry :=
  match uo.2 with
  | Returned => None
  | Raised _ msg => Some (mkFailed uo.1 msg)
  end.

(** The failed list a batch with these outcomes builds, URL by URL. *)
Definition recorded_failures (urls : list string) (os : list Outcome)
    : list FailedEntry :=
  omap failure_of (zip urls os).

(** [{"total": t, "success": s, "failed": f}], as [json.dumps] writes it
    by default. *)
Definition spaced_summary (t s f : nat) : string :=
  "{" +:+ Json.dquote +:+ "total" +:+ Json.dquote +:+ ": " +:+ Json.of_nat t
  +:+ ", " +:+ Json.dquote +:+ "success" +:+ Json.dquote +:+ ": " +:+ Json.of_nat s
  +:+ ", " +:+ Json.dquote +:+ "failed" +:+ Json.dquote +:+ ": " +:+ Json.of_nat f
  +:+ "}".

(** The same object with no white space between its tokens. *)
Definition compact_summary (t s f : nat) : string :=
  "{" +:+ Json.dquote +:+ "total" +:+ Json.dquote +:+ ":" +:+ Json.of_nat t
  +:+ "," +:+ Json.dquote +:+ "success" +:+ Json.dquote +:+ ":" +:+ Json.of_nat s
  +:+ "," +:+ Json.dquote +:+ "failed" +:+ Json.dquote +:+ ":" +:+ Json.of_nat f
  +:+ "}".

(** The file name inside a [Content-Disposition] value of the form
    [attachment; filename=<quote>name<quote>]. *)
Definition disposition_of (filename : string) : string :=
  "attachment; filename=" +:+ Json.dquote +:+ filename +:+ Json.dquote.

Definition headers_of (r : Response) : list (string * string) :=
  match r with
  | HTTPException _ _ => []
  | StreamingResponse _ _ headers _ => headers
  end.

Section JobVocabulary.

Variable Ydl : Type.
Variable download : string -> World Ydl -> Outcome * World Ydl.

(** The outcomes of the fetches of a batch, in the order they are made. *)
Fixpoint outcomes (urls : list string) (w : World Ydl) : list Outcome :=
  match urls with
  | [] => []
  | u :: rest => let '(o, w') := download u w in o :: outcomes rest w'
  end.

(** The summary and the world when the fetch loop of a job is over. *)
Definition after_fetch (env : JobEnv) (urls : list string) (w0 : World Ydl)
    : Summary * World Ydl :=
  fetch_loop download urls (initial_summary env urls) (mkdtemp w0).

(** A fetch that fails puts no regular file into a directory that had
    none. *)
Definition failure_leaves_no_file : Prop :=
  forall u w, is_returned (download u w).1 = false ->
    downloaded_files w = [] -> downloaded_files (download u w).2 = [].

End JobVocabulary.

Arguments outcomes {Ydl} download urls w.
Arguments after_fetch {Ydl} download env urls w0.
Arguments failure_leaves_no_file {Ydl} download.

(** ** Vocabulary of the cleanup task *)

Section CleanupVocabulary.

Variables (FS Exc : Type).
Variable path_is_dir : string -> Cmd FS Exc bool.
Variable rmtree : string -> Cmd FS Exc unit.
Variable path_exists : string -> Cmd FS Exc bool.
Variable unlink : string -> Cmd FS Exc unit.

(** The file system one deletion attempt leaves, whether it raised or not. *)
Definition attempt (fs : FS) (path : string) : FS :=
  (delete_path FS Exc path_is_dir rmtree path_exists unlink path fs).2.

End CleanupVocabulary.

(** ** Sample requests *)

Module Sample.

Definition video (n : nat) : string :=
  "https://www.tiktok.com/@user/video/" +:+ Json.of_nat n.

(** One TikTok URL beside a malformed and an off-domain entry. *)
Definition mixed_request : list string :=
  ["https://www.tiktok.com/@user/video/123"; "not a url"; "https://example.com/x"].

(** 101 entries, all the same valid URL. *)
Definition repeated_request : list string := replicate 101 (video 123).

(** 101 different valid URLs. *)
Definition distinct_request : list string := map video (seq 0 101).

(** The same video under two spellings of the scheme, then the first
    spelling again. *)
Definition respelled_request : list string :=
  [" https://www.tiktok.com/@a/video/1"; "HTTPS://www.tiktok.com/@a/video/1";
   "https://vm.tiktok.com/ZM1/"; "https://www.tiktok.com/@a/video/1  "].

(** ** Sample jobs *)

Definition env : JobEnv :=
  mkJobEnv "3f2a9c" "/tmp" "tiktok_dl_k3x" "2024-05-01T09:00:00+00:00".

Definition w0 : World unit := mkWorld tt ∅ ∅.

(** A downloader that follows a script: for each URL, the outcome of the
    fetch and the entry it leaves in the job's directory, if any. *)
Definition scripted (script : string -> Outcome * option (string * Node))
    (u : string) (w : World unit) : Outcome * World unit :=
  match script u with
  | (o, Some (name, node)) =>
      (o, mkWorld (ydl w) (<[name := node]> (work_files w)) (zip_files w))
  | (o, None) => (o, w)
  end.

Definition media : Node := RegularFile (MediaData "video").

(** The second video is unavailable, every other one is fetched. *)
Definition second_unavailable (u : string) : Outcome * option (string * Node) :=
  if String.eqb u (video 2)
  then (Raised DownloadError "ERROR: Video unavailable", None)
  else (Returned, Some (u +:+ ".mp4", media)).

(** Every fetch times out and leaves the part it had received. *)
Definition timed_out (u : string) : Outcome * option (string * Node) :=
  (Raised OtherException "The read operation timed out",
   Some ("1_user.mp4.part", RegularFile (MediaData "vid"))).

(** Every fetch fails and leaves nothing. *)
Definition unavailable (u : string) : Outcome * option (string * Node) :=
  (Raised DownloadError "ERROR: Video unavailable", None).

(** Every fetch returns without writing anything. *)
Definition nothing_written (u : string) : Outcome * option (string * Node) :=
  (Returned, None).

(** Every fetch returns, having put its file into a subdirectory. *)
Definition into_subdirectory (u : string) : Outcome * option (string * Node) :=
  (Returned, Some ("7_user", Directory {["7.mp4" := media]})).

(** The batch of the example: three videos. *)
Definition three_videos : list string := [video 1; video 2; video 3].

(** Its summary when the second video is unavailable. *)
Definition two_of_three : Summary :=
  mkSummary "3f2a9c" 3 2 [mkFailed (video 2) "ERROR: Video unavailable"]
    "2024-05-01T09:00:00+00:00".

(** ** A sample file system for the cleanup task *)

(** The paths that exist, and which of them are directories. Removing
    the path ["/tmp/locked.zip"] is refused. *)
Record Disk : Type := mkDisk {
  disk_files : gset string;
  disk_dirs : gset string
}.

Inductive OSError : Type := PermissionError.

Definition disk_is_dir (path : string) (d : Disk) : result OSError bool * Disk :=
  (Ok (bool_decide (path ∈ disk_dirs d)), d).

Definition disk_exists (path : string) (d : Disk) : result OSError bool * Disk :=
  (Ok (bool_decide (path ∈ disk_files d ∪ disk_dirs d)), d).

Definition disk_rmtree (path : string) (d : Disk) : result OSError unit * Disk :=
  (Ok tt, mkDisk (disk_files d) (disk_dirs d ∖ {[path]})).

Definition disk_unlink (path : string) (d : Disk) : result OSError unit * Disk :=
  if String.eqb path "/tmp/locked.zip" then (Raise PermissionError, d)
  else (Ok tt, mkDisk (disk_files d ∖ {[path]}) (disk_dirs d)).

Definition disk : Disk :=
  mkDisk {["/tmp/locked.zip"]} {["/tmp/tiktok_dl_k3x"]}.

(** ** More samples *)

(** U+3000 IDEOGRAPHIC SPACE and U+00A0 NO-BREAK SPACE, in UTF-8. *)
Definition ideographic_space : string :=
  String "227" (String "128" (String "128" EmptyString)).

Definition no_break_space : string := String "194" (String "160" EmptyString).

(** A request of blank entries only. *)
Definition blank_request : list string :=
  [EmptyString; "   "; String "009" " "; ideographic_space;
   no_break_space +:+ " " +:+ ideographic_space].

(** A padded request with a blank entry and a repetition. *)
Definition padded_request : list string :=
  [ideographic_space +:+ " https://www.tiktok.com/@a/video/1" +:+ no_break_space;
   ideographic_space; "https://vm.tiktok.com/ZM1/";
   "https://www.tiktok.com/@a/video/1 "].

(** Ten bytes of a file. *)
Definition ten_bytes : list Byte.byte := String.list_byte_of_string "0123456789".

(** A home directory for [expanduser], and the one cookie file there is. *)
Definition home_expanduser (path : string) : string :=
  match path with
  | String "~" rest => "/home/app" +:+ rest
  | _ => path
  end.

Definition only_cookies_txt (path : string) : bool :=
  String.eqb path "/home/app/cookies.txt".

(** A disk on which every removal succeeds. *)
Definition disk_present (d : Disk) (path : string) : bool :=
  bool_decide (path ∈ disk_files d ∪ disk_dirs d).

Definition disk_remove (path : string) (d : Disk) : result OSError unit * Disk :=
  (Ok tt, mkDisk (disk_files d ∖ {[path]}) (disk_dirs d ∖ {[path]})).

Definition job_disk : Disk :=
  mkDisk {["/tmp/tiktok_dl_k3x.zip"]} {["/tmp/tiktok_dl_k3x"]}.

End Sample.

(** * Properties *)

(** ** Strings *)

Module StrFacts.
Import Str.

Lemma app_empty_l (s : string) : EmptyString +:+ s = s.
Proof. reflexivity. Qed.

Lemma app_cons (c : ascii) (a b : string) :
  String c a +:+ b = String c (a +:+ b).
Proof. reflexivity. Qed.

Lemma app_empty_r (s : string) : s +:+ EmptyString = s.
Proof. induction s as [|c s IH]; [reflexivity|]. rewrite app_cons, IH. reflexivity. Qed.

Lemma app_assoc (a b c : string) : (a +:+ b) +:+ c = a +:+ (b +:+ c).
Proof.
  induction a as [|x a IH]; [reflexivity|].
  rewrite !app_cons, IH. reflexivity.
Qed.

Lemma app_is_empty (a b : string) :
  a +:+ b = EmptyString -> a = EmptyString /\ b = EmptyString.
Proof. destruct a; [rewrite app_empty_l; auto | rewrite app_cons; discriminate]. Qed.

(** [endswith] finds exactly the strings of the form [prefix + suffix]. *)
Lemma endswith_unfold (s suffix : string) :
  endswith s suffix =
  if String.eqb s suffix then true
  else match s with
       | EmptyString => false
       | String _ s' => endswith s' suffix
       end.
Proof. destruct s; reflexivity. Qed.

Lemma endswith_spec (s suffix : string) :
  endswith s suffix = true <-> exists prefix, s = prefix +:+ suffix.
Proof.
  induction s as [|c s IH]; rewrite endswith_unfold.
  - destruct (String.eqb_spec EmptyString suffix) as [<-|Hne].
    + split; [exists EmptyString; reflexivity | reflexivity].
    + split; [discriminate|].
      intros [p Hp]. symmetry in Hp. apply app_is_empty in Hp as [_ ->].
      contradiction.
  - destruct (String.eqb_spec (String c s) suffix) as [<-|Hne].
    + split; [exists EmptyString; reflexivity | reflexivity].
    + rewrite IH. split.
      * intros [p ->]. exists (String c p). reflexivity.
      * intros [[|c' p] Hp].
        -- rewrite app_empty_l in Hp. contradiction.
        -- rewrite app_cons in Hp. injection Hp as _ ->. exists p. reflexivity.
Qed.

End StrFacts.

(** ** What the URL validator accepts *)

Lemma host_matches_spec (host domain : string) :
  host_matches host domain = true <->
  host = domain \/ exists sub, host = sub +:+ "." +:+ domain.
Proof.
  unfold host_matches. rewrite orb_true_iff, StrFacts.endswith_spec.
  destruct (String.eqb_spec host domain); intuition discriminate.
Qed.

Section ValidatorFacts.

Variable lower : string -> string.
Variable urlparse : string -> result ValueError ParseResult.

Lemma allow_listed_spec (host : string) :
  existsb (host_matches (lower host)) TIKTOK_DOMAINS = true <->
  allow_listed lower host.
Proof.
  rewrite existsb_exists. unfold allow_listed. split.
  - intros (d & Hd & Hm). exists d. split; [apply list_elem_of_In; exact Hd|].
    apply host_matches_spec. exact Hm.
  - intros (d & Hd & Hm). exists d. split; [apply list_elem_of_In; exact Hd|].
    apply host_matches_spec. exact Hm.
Qed.

Lemma ensure_valid_url_returns_input (url normalized : string) :
  _ensure_valid_url lower urlparse url = Ok normalized -> normalized = url.
Proof.
  unfold _ensure_valid_url. destruct (urlparse url) as [parsed|e]; [|discriminate].
  destruct (negb _); [discriminate|]. destruct (negb _); [discriminate|].
  intros [= <-]. reflexivity.
Qed.

(** C5, as the code has it. [_ensure_valid_url] accepts a string,
    returning it unchanged, if and only if the scheme [urlparse] reports
    for it is [http] or [https] and the host name [urlparse] reports,
    lower-cased by [str.lower], is one of [TIKTOK_DOMAINS] or ends with a
    dot followed by one of them; every other string raises a
    [ValueError]. The test is on the parsed scheme, not on the spelling
    of the URL. *)
Theorem ensure_valid_url_accepts_iff (url : string) :
  (_ensure_valid_url lower urlparse url = Ok url <-> valid_url lower urlparse url) /\
  (~ valid_url lower urlparse url ->
   exists e, _ensure_valid_url lower urlparse url = Raise e).
Proof.
  assert (Hiff : _ensure_valid_url lower urlparse url = Ok url <->
                 valid_url lower urlparse url).
  { unfold _ensure_valid_url, valid_url.
    destruct (urlparse url) as [parsed|e];
      [|split; [discriminate | intros (p & Hp & _); discriminate]].
    pose proof (allow_listed_spec (default EmptyString (hostname parsed))) as Hal.
    assert (Hsch : String.eqb (scheme parsed) "http"
                   || String.eqb (scheme parsed) "https" = true
                   <-> http_or_https (scheme parsed)).
    { unfold http_or_https. rewrite orb_true_iff, !String.eqb_eq. reflexivity. }
    destruct (String.eqb (scheme parsed) "http" || String.eqb (scheme parsed) "https");
      cbn [negb].
    - destruct (existsb _ TIKTOK_DOMAINS); cbn [negb].
      + split; [|reflexivity]. intros _. exists parsed.
        split; [reflexivity|]. split; [apply Hsch | apply Hal]; reflexivity.
      + split; [discriminate|]. intros (p & [= <-] & _ & H).
        apply Hal in H. discriminate.
    - split; [discriminate|]. intros (p & [= <-] & H & _).
      apply Hsch in H. discriminate. }
  split; [exact Hiff|].
  intros Hnot. destruct (_ensure_valid_url lower urlparse url) as [n|e] eqn:E.
  - pose proof (ensure_valid_url_returns_input _ _ E) as ->.
    exfalso. apply Hnot, Hiff. reflexivity.
  - exists e. reflexivity.
Qed.

End ValidatorFacts.

(** ** First occurrences *)

Section FirstSeen.

Implicit Types (l acc : list string) (x y : string).

Lemma elem_of_first_seen l x : x ∈ first_seen l <-> x ∈ l.
Proof.
  induction l as [|a l IH]; simpl; [reflexivity|].
  rewrite !elem_of_cons, list_elem_of_filter, IH.
  destruct (decide (x = a)); intuition.
Qed.

Lemma NoDup_first_seen l : NoDup (first_seen l).
Proof.
  induction l as [|a l IH]; simpl; [constructor|].
  constructor; [|apply NoDup_filter, IH].
  rewrite list_elem_of_filter. intros [Hne _]. apply Hne. reflexivity.
Qed.

(** Filtering keeps the relative order of what it keeps. *)
Lemma filter_lookup_order (P : string -> Prop) `{!∀ x, Decision (P x)}
    l (i j : nat) x y :
  i < j -> filter P l !! i = Some x -> filter P l !! j = Some y ->
  exists i' j', i' < j' /\ l !! i' = Some x /\ l !! j' = Some y.
Proof.
  revert i j. induction l as [|a l IH]; intros i j Hij Hi Hj.
  - rewrite filter_nil in Hi. discriminate.
  - rewrite filter_cons in Hi, Hj. destruct (decide (P a)).
    + destruct j as [|j]; [lia|]. destruct i as [|i].
      * simpl in Hi, Hj. injection Hi as ->.
        apply list_elem_of_lookup_2, list_elem_of_filter in Hj as [_ Hy].
        apply list_elem_of_lookup_1 in Hy as [j' Hj'].
        exists 0, (S j'). split; [lia|]. split; [reflexivity | exact Hj'].
      * simpl in Hi, Hj.
        destruct (IH i j ltac:(lia) Hi Hj) as (i' & j' & Hlt & Hi' & Hj').
        exists (S i'), (S j'). split; [lia|]. split; assumption.
    + destruct (IH i j Hij Hi Hj) as (i' & j' & Hlt & Hi' & Hj').
      exists (S i'), (S j'). split; [lia|]. split; assumption.
Qed.

(** [first_seen] lists the elements by increasing first occurrence. *)
Lemma first_seen_order l (i j : nat) x y :
  i < j -> first_seen l !! i = Some x -> first_seen l !! j = Some y ->
  first_index x l < first_index y l.
Proof.
  revert i j. induction l as [|a l IH]; intros i j Hij Hi Hj; [discriminate|].
  simpl in Hi, Hj. destruct j as [|j]; [lia|]. simpl in Hj.
  assert (Hy : y ≠ a).
  { apply list_elem_of_lookup_2, list_elem_of_filter in Hj as [Hy _]. exact Hy. }
  simpl. destruct (decide (y = a)) as [|_]; [contradiction|].
  destruct i as [|i].
  - injection Hi as ->. rewrite decide_True by reflexivity. lia.
  - simpl in Hi.
    assert (Hx : x ≠ a).
    { apply list_elem_of_lookup_2, list_elem_of_filter in Hi as [Hx _]. exact Hx. }
    rewrite decide_False by exact Hx.
    destruct (filter_lookup_order (λ y, y ≠ a) _ i j x y ltac:(lia) Hi Hj)
      as (i' & j' & Hlt & Hi' & Hj').
    pose proof (IH i' j' Hlt Hi' Hj'). lia.
Qed.

(** The elements of [first_seen (x :: l)] not yet in an accumulator. *)
Lemma filter_fresh_first_seen_cons acc x l :
  filter (λ y, y ∉ acc) (first_seen (x :: l)) =
  if decide (x ∈ acc) then filter (λ y, y ∉ acc) (first_seen l)
  else x :: filter (λ y, y ∉ acc ++ [x]) (first_seen l).
Proof.
  simpl. rewrite filter_cons, list_filter_filter.
  destruct (decide (x ∈ acc)) as [Hin|Hnin].
  - rewrite decide_False by (intros H; exact (H Hin)).
    apply list_filter_iff. intros y. split; [tauto|].
    intros Hy. split; [exact Hy|]. intros ->. exact (Hy Hin).
  - rewrite decide_True by exact Hnin. f_equal.
    apply list_filter_iff. intros y.
    rewrite elem_of_app, list_elem_of_singleton. tauto.
Qed.

Lemma filter_fresh_nil l : filter (λ y, y ∉ []) l = l.
Proof.
  induction l as [|a l IH]; [reflexivity|].
  rewrite filter_cons_True by apply not_elem_of_nil. rewrite IH. reflexivity.
Qed.

Lemma first_seen_length l : length (first_seen l) = length (remove_dups l).
Proof.
  apply Permutation_length, NoDup_Permutation.
  - apply NoDup_first_seen.
  - apply NoDup_remove_dups.
  - intros x. rewrite elem_of_first_seen, elem_of_remove_dups. reflexivity.
Qed.

End FirstSeen.

(** ** The validation loop *)

Section LoopFacts.

Variable strip : string -> string.
Variable lower : string -> string.
Variable urlparse : string -> result ValueError ParseResult.

Implicit Types (urls cleaned : list string) (seen : gset string).

Lemma entries_cons (raw : string) urls :
  entries strip (raw :: urls) =
  if Str.is_empty (strip raw) then entries strip urls
  else strip raw :: entries strip urls.
Proof.
  unfold entries. simpl. rewrite filter_cons.
  destruct (Str.is_empty (strip raw)); reflexivity.
Qed.

Lemma entries_app urls1 urls2 :
  entries strip (urls1 ++ urls2) = entries strip urls1 ++ entries strip urls2.
Proof. unfold entries. rewrite map_app, filter_app. reflexivity. Qed.

(** When every entry is accepted the loop ends normally, having added
    the first occurrences it had not seen, in order. *)
Lemma validate_loop_accepted urls cleaned seen :
  (forall x, x ∈ seen <-> x ∈ cleaned) ->
  Forall (accepted lower urlparse) (entries strip urls) ->
  validate_loop strip lower urlparse urls cleaned seen =
  Ok (cleaned ++ filter (λ y, y ∉ cleaned) (first_seen (entries strip urls))).
Proof.
  revert cleaned seen. induction urls as [|raw urls IH]; intros cleaned seen Hseen Hall.
  - simpl. rewrite app_nil_r. reflexivity.
  - rewrite entries_cons in Hall |- *. simpl.
    destruct (Str.is_empty (strip raw)); [apply IH; assumption|].
    apply Forall_cons in Hall as [Hraw Hall]. unfold accepted in Hraw. rewrite Hraw.
    rewrite filter_fresh_first_seen_cons.
    destruct (decide (strip raw ∈ seen)) as [Hin|Hnin].
    + rewrite decide_True by (apply Hseen; exact Hin). apply IH; assumption.
    + rewrite decide_False by (rewrite <- Hseen; exact Hnin).
      rewrite IH; [rewrite <- app_assoc; reflexivity| |exact Hall].
      intros x. rewrite elem_of_union, elem_of_singleton, elem_of_app,
        list_elem_of_singleton, Hseen. tauto.
Qed.

(** A loop that ends normally has accepted every entry. *)
Lemma validate_loop_Ok_accepted urls cleaned seen (out : list string) :
  validate_loop strip lower urlparse urls cleaned seen = Ok out ->
  Forall (accepted lower urlparse) (entries strip urls).
Proof.
  revert cleaned seen. induction urls as [|raw urls IH]; intros cleaned seen Hout.
  - constructor.
  - rewrite entries_cons. simpl in Hout.
    destruct (Str.is_empty (strip raw)); [eapply IH; exact Hout|].
    destruct (_ensure_valid_url lower urlparse (strip raw)) as [n|e] eqn:E;
      [|discriminate].
    pose proof (ensure_valid_url_returns_input _ _ _ _ E) as ->.
    constructor; [exact E|].
    destruct (decide (strip raw ∈ seen)); eapply IH; exact Hout.
Qed.

(** The first entry that is not accepted ends the loop with its error. *)
Lemma validate_loop_first_rejected (pre post : list string) (raw : string)
    cleaned seen (e : ValueError) :
  Forall (accepted lower urlparse) (entries strip pre) ->
  Str.is_empty (strip raw) = false ->
  _ensure_valid_url lower urlparse (strip raw) = Raise e ->
  validate_loop strip lower urlparse (pre ++ raw :: post) cleaned seen = Raise e.
Proof.
  intros Hpre Hraw He. revert cleaned seen Hpre.
  induction pre as [|p pre IH]; intros cleaned seen Hpre; simpl.
  - rewrite Hraw, He. reflexivity.
  - rewrite entries_cons in Hpre.
    destruct (Str.is_empty (strip p)); [apply IH; exact Hpre|].
    apply Forall_cons in Hpre as [Hp Hpre]. unfold accepted in Hp. rewrite Hp.
    destruct (decide (strip p ∈ seen)); apply IH; exact Hpre.
Qed.

(** [validate_urls] on a request whose entries are all accepted. *)
Lemma validate_urls_accepted urls :
  Forall (accepted lower urlparse) (entries strip urls) ->
  validate_urls strip lower urlparse urls =
  let cleaned := first_seen (entries strip urls) in
  if Nat.eqb (length cleaned) 0 then Raise NoUrlGiven
  else if MAX_URLS <? length cleaned then Raise TooManyUrls
  else Ok cleaned.
Proof.
  intros Hall. unfold validate_urls.
  rewrite (validate_loop_accepted urls [] ∅); [|set_solver|exact Hall].
  rewrite app_nil_l, filter_fresh_nil. reflexivity.
Qed.

End LoopFacts.

(** ** The validated list *)

Section ValidatorClaims.

Variable strip : string -> string.
Variable lower : string -> string.
Variable urlparse : string -> result ValueError ParseResult.

(** C4. The list [validate_urls] returns has no duplicates; it holds
    exactly the entries of the request as [str.strip] leaves them, the
    blank ones apart, compared as the strings they are; and it lists
    them by first occurrence: of two returned URLs the one returned
    earlier is the one first seen earlier in the request. *)
Theorem validate_urls_first_seen (urls cleaned : list string) :
  validate_urls strip lower urlparse urls = Ok cleaned ->
  cleaned = first_seen (entries strip urls) /\
  NoDup cleaned /\
  (forall x, x ∈ cleaned <-> x ∈ entries strip urls) /\
  (forall (i j : nat) (x y : string),
     i < j -> cleaned !! i = Some x -> cleaned !! j = Some y ->
     first_index x (entries strip urls) < first_index y (entries strip urls)).
Proof.
  intros Hok.
  assert (Hall : Forall (accepted lower urlparse) (entries strip urls)).
  { unfold validate_urls in Hok.
    destruct (validate_loop strip lower urlparse urls [] ∅) as [out|e] eqn:E;
      [|discriminate].
    eapply validate_loop_Ok_accepted. exact E. }
  rewrite (validate_urls_accepted _ _ _ _ Hall) in Hok. cbv zeta in Hok.
  destruct (Nat.eqb _ 0); [discriminate|].
  destruct (MAX_URLS <? _); [discriminate|].
  injection Hok as <-.
  split; [reflexivity|]. split; [apply NoDup_first_seen|].
  split; [apply elem_of_first_seen|].
  intros i j x y. apply first_seen_order.
Qed.

(** C3, as the code has it. When every entry of the request is accepted,
    validation fails with the too-many error exactly when the number of
    different trimmed non-blank entries exceeds [MAX_URLS]; the length of
    the request itself is not looked at. *)
Theorem too_many_distinct_urls (urls : list string) :
  Forall (accepted lower urlparse) (entries strip urls) ->
  (validate_urls strip lower urlparse urls = Raise TooManyUrls <->
   MAX_URLS < length (remove_dups (entries strip urls))).
Proof.
  intros Hall. rewrite (validate_urls_accepted _ _ _ _ Hall). cbv zeta.
  rewrite <- first_seen_length.
  destruct (Nat.eqb_spec (length (first_seen (entries strip urls))) 0) as [H0|H0].
  - rewrite H0. unfold MAX_URLS. split; [discriminate | lia].
  - destruct (Nat.ltb_spec MAX_URLS (length (first_seen (entries strip urls)))).
    + split; [intros _; assumption | reflexivity].
    + split; [discriminate | lia].
Qed.

(** C2, as the code has it. The first non-blank entry that
    [_ensure_valid_url] rejects fails the whole request with its error,
    whatever valid entries stand before or after it; no invalid entry is
    stripped. Blank is what [str.strip] leaves empty. *)
Theorem invalid_entry_fails_request (pre post : list string) (raw : string)
    (e : ValueError) :
  Forall (accepted lower urlparse) (entries strip pre) ->
  Str.is_empty (strip raw) = false ->
  _ensure_valid_url lower urlparse (strip raw) = Raise e ->
  validate_urls strip lower urlparse (pre ++ raw :: post) = Raise e.
Proof.
  intros Hpre Hraw He. unfold validate_urls.
  rewrite (validate_loop_first_rejected strip lower urlparse pre post raw [] ∅ e
             Hpre Hraw He).
  reflexivity.
Qed.

End ValidatorClaims.

Lemma validate_urls_first_seen_witness :
  validate_urls Str.strip Str.ascii_lower Urllib.urlparse Sample.respelled_request
  = Ok ["https://www.tiktok.com/@a/video/1"; "HTTPS://www.tiktok.com/@a/video/1";
        "https://vm.tiktok.com/ZM1/"] /\
  NoDup ["https://www.tiktok.com/@a/video/1"; "HTTPS://www.tiktok.com/@a/video/1";
         "https://vm.tiktok.com/ZM1/"].
Proof.
  assert (H : validate_urls Str.strip Str.ascii_lower Urllib.urlparse
                Sample.respelled_request
              = Ok ["https://www.tiktok.com/@a/video/1";
                    "HTTPS://www.tiktok.com/@a/video/1";
                    "https://vm.tiktok.com/ZM1/"])
    by (vm_compute; reflexivity).
  split; [exact H|].
  exact (proj1 (proj2 (validate_urls_first_seen Str.strip Str.ascii_lower
                         Urllib.urlparse _ _ H))).
Defined.

Lemma too_many_distinct_urls_witness :
  validate_urls Str.strip Str.ascii_lower Urllib.urlparse Sample.distinct_request
  = Raise TooManyUrls.
Proof.
  apply (too_many_distinct_urls Str.strip Str.ascii_lower Urllib.urlparse
           Sample.distinct_request).
  - apply (bool_decide_unpack _). vm_compute. exact I.
  - vm_compute. lia.
Defined.

(** C3, as stated, fails: a request of 101 entries, each of them valid,
    that repeats one URL is accepted. *)
Lemma repeated_request_accepted :
  MAX_URLS < length Sample.repeated_request /\
  Forall (accepted Str.ascii_lower Urllib.urlparse) Sample.repeated_request /\
  validate_urls Str.strip Str.ascii_lower Urllib.urlparse Sample.repeated_request
  = Ok [Sample.video 123].
Proof.
  split; [vm_compute; lia|].
  split; [apply (bool_decide_unpack _); vm_compute; exact I | vm_compute; reflexivity].
Qed.

Lemma invalid_entry_fails_request_witness :
  validate_urls Str.strip Str.ascii_lower Urllib.urlparse
    (["https://www.tiktok.com/@user/video/123"] ++ "not a url" ::
     ["https://example.com/x"]) = Raise SchemeNotHttp.
Proof.
  apply invalid_entry_fails_request.
  - apply (bool_decide_unpack _). vm_compute. exact I.
  - vm_compute. reflexivity.
  - vm_compute. reflexivity.
Defined.

(** C2, as stated, fails: the request of the example is refused. *)
Lemma mixed_request_refused :
  validate_urls Str.strip Str.ascii_lower Urllib.urlparse Sample.mixed_request
  = Raise SchemeNotHttp /\
  validate_urls Str.strip Str.ascii_lower Urllib.urlparse Sample.mixed_request
    <> Ok ["https://www.tiktok.com/@user/video/123"].
Proof.
  assert (H : validate_urls Str.strip Str.ascii_lower Urllib.urlparse
                Sample.mixed_request = Raise SchemeNotHttp)
    by (vm_compute; reflexivity).
  split; [exact H|]. rewrite H. discriminate.
Qed.

(** White space beyond ASCII is trimmed as well: an entry that is one
    U+3000 is dropped, and a URL followed by U+00A0 is the URL. *)
Example validate_urls_wide_spaces :
  validate_urls Str.strip Str.ascii_lower Urllib.urlparse
    ["https://www.tiktok.com/@a/video/1"; Sample.ideographic_space]
  = Ok ["https://www.tiktok.com/@a/video/1"] /\
  validate_urls Str.strip Str.ascii_lower Urllib.urlparse
    ["https://www.tiktok.com/@a/video/1" +:+ Sample.no_break_space;
     "https://www.tiktok.com/@a/video/1"]
  = Ok ["https://www.tiktok.com/@a/video/1"].
Proof. split; vm_compute; reflexivity. Qed.

(** C5, as stated, fails: a URL whose scheme is spelled in capitals is
    accepted, though that spelling is neither [http] nor [https]. *)
Lemma upper_case_scheme_accepted :
  _ensure_valid_url Str.ascii_lower Urllib.urlparse
    "HTTPS://www.tiktok.com/@a/video/1" = Ok "HTTPS://www.tiktok.com/@a/video/1" /\
  scheme_as_written "HTTPS://www.tiktok.com/@a/video/1" = Some "HTTPS" /\
  "HTTPS" <> "http" /\ "HTTPS" <> "https".
Proof.
  split; [vm_compute; reflexivity|]. split; [vm_compute; reflexivity|].
  split; discriminate.
Qed.

(** ** The fetch loop *)

Section LoopAccounting.

Variable Ydl : Type.
Variable download : string -> World Ydl -> Outcome * World Ydl.

Implicit Types (urls : list string) (s : Summary) (w : World Ydl).

Lemma fetch_loop_cons (u : string) urls s w :
  fetch_loop download (u :: urls) s w =
  match (download u w).1 with
  | Returned => fetch_loop download urls (incr_success s) (download u w).2
  | Raised _ msg => fetch_loop download urls (append_failed s u msg) (download u w).2
  end.
Proof. simpl. destruct (download u w) as [[|[] msg] w']; reflexivity. Qed.

Lemma outcomes_cons (u : string) urls w :
  outcomes download (u :: urls) w =
  (download u w).1 :: outcomes download urls (download u w).2.
Proof. simpl. destruct (download u w); reflexivity. Qed.

Lemma outcomes_length urls w : length (outcomes download urls w) = length urls.
Proof.
  revert w. induction urls as [|u urls IH]; intros w; [reflexivity|].
  rewrite outcomes_cons. simpl. rewrite IH. reflexivity.
Qed.

(** The loop over a list in two parts is the loop over the second part
    run where the loop over the first part ended. *)
Lemma fetch_loop_app urls1 urls2 s w :
  fetch_loop download (urls1 ++ urls2) s w =
  fetch_loop download urls2 (fetch_loop download urls1 s w).1
                            (fetch_loop download urls1 s w).2.
Proof.
  revert s w. induction urls1 as [|u urls1 IH]; intros s w; [reflexivity|].
  rewrite <- app_comm_cons, !fetch_loop_cons.
  destruct (download u w).1; apply IH.
Qed.

Lemma outcomes_app urls1 urls2 s w :
  outcomes download (urls1 ++ urls2) w =
  outcomes download urls1 w ++
  outcomes download urls2 (fetch_loop download urls1 s w).2.
Proof.
  revert s w. induction urls1 as [|u urls1 IH]; intros s w; [reflexivity|].
  rewrite <- app_comm_cons, !outcomes_cons, fetch_loop_cons. simpl. f_equal.
  destruct (download u w).1; apply IH.
Qed.

Lemma recorded_failures_cons (u : string) urls (o : Outcome) (os : list Outcome) :
  recorded_failures (u :: urls) (o :: os) =
  match o with
  | Returned => recorded_failures urls os
  | Raised _ msg => mkFailed u msg :: recorded_failures urls os
  end.
Proof. destruct o; reflexivity. Qed.

(** What the loop does to a summary: the fixed fields stay, [success]
    grows by the number of fetches that returned, [failed] by the entries
    of those that raised, in order. *)
Lemma fetch_loop_accounts urls s w :
  let s' := (fetch_loop download urls s w).1 in
  let os := outcomes download urls w in
  job_id s' = job_id s /\ total s' = total s /\
  generated_at s' = generated_at s /\
  success s' = success s + length (filter (λ o, is_returned o = true) os) /\
  failed s' = failed s ++ recorded_failures urls os.
Proof.
  revert s w. induction urls as [|u urls IH]; intros s w; cbv zeta.
  - simpl. rewrite app_nil_r. repeat split; lia.
  - rewrite fetch_loop_cons, outcomes_cons, recorded_failures_cons.
    destruct (download u w).1 as [|cls msg].
    + destruct (IH (incr_success s) (download u w).2) as (H1 & H2 & H3 & H4 & H5).
      rewrite H1, H2, H3, H4, H5, filter_cons_True by reflexivity.
      simpl. repeat split; lia.
    + destruct (IH (append_failed s u msg) (download u w).2) as (H1 & H2 & H3 & H4 & H5).
      rewrite H1, H2, H3, H4, H5, filter_cons_False by discriminate.
      simpl. rewrite <- app_assoc. repeat split; lia.
Qed.

(** Every URL is counted once: as a success or as a failed entry. *)
Lemma returned_plus_recorded urls (os : list Outcome) :
  length os = length urls ->
  length (filter (λ o, is_returned o = true) os)
  + length (recorded_failures urls os) = length urls.
Proof.
  revert os. induction urls as [|u urls IH]; intros [|o os] Hlen;
    simpl in Hlen; try discriminate; [reflexivity|].
  rewrite recorded_failures_cons. pose proof (IH os ltac:(lia)) as Hos.
  destruct o as [|cls msg].
  - rewrite filter_cons_True by reflexivity. simpl. lia.
  - rewrite filter_cons_False by discriminate. simpl. lia.
Qed.

Lemma after_fetch_accounts (env : JobEnv) urls (w0 : World Ydl) :
  let s := (after_fetch download env urls w0).1 in
  let os := outcomes download urls (mkdtemp w0) in
  job_id s = uuid4_hex env /\ total s = length urls /\
  success s = length (filter (λ o, is_returned o = true) os) /\
  failed s = recorded_failures urls os.
Proof.
  cbv zeta. unfold after_fetch.
  destruct (fetch_loop_accounts urls (initial_summary env urls) (mkdtemp w0))
    as (H1 & H2 & _ & H4 & H5).
  rewrite H1, H2, H4, H5. simpl. repeat split.
Qed.

(** The two ways [_run_download_job] ends, by the regular files the
    loop left in the job's directory. *)
Lemma run_download_job_cases (env : JobEnv) urls (w0 : World Ydl) :
  let s := (after_fetch download env urls w0).1 in
  let w := (after_fetch download env urls w0).2 in
  (downloaded_files w = [] /\
   _run_download_job download env urls w0 = (Raise NoVideoDownloaded, w)) \/
  (downloaded_files w <> [] /\
   _run_download_job download env urls w0 =
   (Ok (mkJobReturn (gettempdir env +:+ "/" +:+ mkdtemp_name env +:+ ".zip") s
          (gettempdir env +:+ "/" +:+ mkdtemp_name env)),
    make_archive (gettempdir env +:+ "/" +:+ mkdtemp_name env +:+ ".zip")
      (write_text report_name (ReportJson s) w))).
Proof.
  cbv zeta. unfold _run_download_job, after_fetch.
  destruct (fetch_loop download urls (initial_summary env urls) (mkdtemp w0)) as [s w].
  simpl. destruct (downloaded_files w) as [|f fs].
  - left. split; reflexivity.
  - right. split; [discriminate|]. rewrite StrFacts.app_assoc. reflexivity.
Qed.

End LoopAccounting.

(** ** The job and its response *)

Section JobClaims.

Variable Ydl : Type.
Variable download : string -> World Ydl -> Outcome * World Ydl.

Implicit Types (urls : list string) (s : Summary) (w : World Ydl) (env : JobEnv).

(** The check of the job looks at the entries of its directory only. *)
Lemma downloaded_files_nil w :
  downloaded_files w = [] <->
  forall name node, work_files w !! name = Some node -> is_file node = false.
Proof.
  unfold downloaded_files. split.
  - intros Hnil name node Hlook.
    destruct (is_file node) eqn:Hf; [exfalso|reflexivity].
    apply (filter_nil_not_elem_of _ _ (name, node) Hnil Hf).
    apply elem_of_map_to_list. exact Hlook.
  - intros Hall.
    destruct (filter _ (map_to_list (work_files w))) as [|[name node] l] eqn:E;
      [reflexivity|exfalso].
    assert (Hin : (name, node) ∈ filter (λ p, is_file p.2 = true)
                    (map_to_list (work_files w))) by (rewrite E; left).
    apply list_elem_of_filter in Hin as [Hf Hin]. simpl in Hf.
    apply elem_of_map_to_list in Hin. rewrite (Hall _ _ Hin) in Hf. discriminate.
Qed.

Lemma downloaded_files_mkdtemp w : downloaded_files (mkdtemp w) = [].
Proof. unfold downloaded_files, mkdtemp. simpl. rewrite map_to_list_empty. reflexivity. Qed.

(** C1. In the summary a job returns, the number of successes plus the
    length of the failed list is the total, which is the number of URLs
    of the batch; the successes are the fetches that returned and the
    failed list holds, in input order, one entry for each fetch that
    raised, with its URL and the message of its exception. *)
Theorem summary_accounts_for_every_url env urls (w0 : World Ydl)
    (r : JobReturn) w :
  _run_download_job download env urls w0 = (Ok r, w) ->
  success (job_summary r) + length (failed (job_summary r)) = total (job_summary r) /\
  total (job_summary r) = length urls /\
  success (job_summary r) =
    length (filter (λ o, is_returned o = true) (outcomes download urls (mkdtemp w0))) /\
  failed (job_summary r) =
    recorded_failures urls (outcomes download urls (mkdtemp w0)).
Proof.
  intros Hrun.
  destruct (run_download_job_cases Ydl download env urls w0) as [[_ H]|[_ H]];
    rewrite H in Hrun; [discriminate|].
  injection Hrun as <- _. simpl.
  destruct (after_fetch_accounts Ydl download env urls w0) as (_ & Ht & Hs & Hf).
  rewrite Ht, Hs, Hf. repeat split.
  apply returned_plus_recorded, outcomes_length.
Qed.

(** C6. A fetch that raises, whatever the class of its exception, is
    recorded as one entry of the failed list with its URL and message,
    and the loop goes on with the URLs that follow it, in order, from
    the world the failed fetch left. *)
Theorem failed_fetch_is_recorded_and_loop_goes_on (pre post : list string)
    (u : string) (cls : ExcClass) (msg : string) s w :
  (download u (fetch_loop download pre s w).2).1 = Raised cls msg ->
  fetch_loop download (pre ++ u :: post) s w =
    fetch_loop download post
      (append_failed (fetch_loop download pre s w).1 u msg)
      (download u (fetch_loop download pre s w).2).2 /\
  outcomes download (pre ++ u :: post) w =
    outcomes download pre w ++ Raised cls msg ::
    outcomes download post (download u (fetch_loop download pre s w).2).2 /\
  mkFailed u msg ∈ failed (fetch_loop download (pre ++ u :: post) s w).1.
Proof.
  intros Hraise.
  assert (Hloop : fetch_loop download (pre ++ u :: post) s w =
    fetch_loop download post
      (append_failed (fetch_loop download pre s w).1 u msg)
      (download u (fetch_loop download pre s w).2).2).
  { rewrite fetch_loop_app, fetch_loop_cons, Hraise. reflexivity. }
  split; [exact Hloop|]. split.
  - rewrite (outcomes_app Ydl download pre (u :: post) s w), outcomes_cons, Hraise.
    reflexivity.
  - rewrite Hloop.
    destruct (fetch_loop_accounts Ydl download post
                (append_failed (fetch_loop download pre s w).1 u msg)
                (download u (fetch_loop download pre s w).2).2)
      as (_ & _ & _ & _ & Hf).
    rewrite Hf. simpl. rewrite !elem_of_app, list_elem_of_singleton. auto.
Qed.

(** Where no failing fetch leaves a regular file, a batch of failing
    fetches leaves none. *)
Lemma all_failed_no_file urls s w :
  failure_leaves_no_file download ->
  Forall (λ o, is_returned o = false) (outcomes download urls w) ->
  downloaded_files w = [] ->
  downloaded_files (fetch_loop download urls s w).2 = [].
Proof.
  intros Hleave. revert s w. induction urls as [|u urls IH]; intros s w Hall Hnil.
  - exact Hnil.
  - rewrite outcomes_cons in Hall. apply Forall_cons in Hall as [Hu Hall].
    rewrite fetch_loop_cons.
    pose proof (Hleave u w Hu Hnil) as Hnil'.
    destruct (download u w).1; [discriminate|]. apply IH; assumption.
Qed.

(** C7, as the code has it. If the job's directory holds no regular
    file when the fetch loop is over, the request ends with the server
    error of the job, whatever the summary counts, and no archive is
    made or returned. A batch whose fetches all fail ends this way when
    no failing fetch has left a regular file in the directory. *)
Theorem empty_workspace_fails_job env urls (w0 : World Ydl) :
  (downloaded_files (after_fetch download env urls w0).2 = [] ->
   download_videos download env urls w0 =
   (HTTPException 500 NoVideoDownloaded, (after_fetch download env urls w0).2)) /\
  (failure_leaves_no_file download ->
   Forall (λ o, is_returned o = false) (outcomes download urls (mkdtemp w0)) ->
   download_videos download env urls w0 =
   (HTTPException 500 NoVideoDownloaded, (after_fetch download env urls w0).2)).
Proof.
  assert (H1 : downloaded_files (after_fetch download env urls w0).2 = [] ->
    download_videos download env urls w0 =
    (HTTPException 500 NoVideoDownloaded, (after_fetch download env urls w0).2)).
  { intros Hnil. unfold download_videos.
    destruct (run_download_job_cases Ydl download env urls w0) as [[_ H]|[Hne _]];
      [rewrite H; reflexivity | contradiction]. }
  split; [exact H1|].
  intros Hleave Hall. apply H1. unfold after_fetch.
  apply all_failed_no_file; [exact Hleave | exact Hall | apply downloaded_files_mkdtemp].
Qed.

Lemma spaced_summary_dumps (t n f : nat) :
  Json.dumps [("total", t); ("success", n); ("failed", f)] = spaced_summary t n f.
Proof.
  unfold Json.dumps, Json.join_members, Json.member, spaced_summary. simpl.
  rewrite !StrFacts.app_assoc. reflexivity.
Qed.

Lemma content_disposition_filename s :
  content_disposition s = disposition_of ("tiktok_videos_" +:+ job_id s +:+ ".zip").
Proof.
  unfold content_disposition, disposition_of.
  rewrite !StrFacts.app_assoc. reflexivity.
Qed.

(** C9, as the code has it. The response of a job that succeeded has an
    [X-Download-Summary] header whose value is the object of the three
    counts as [json.dumps] writes it by default, with a space after each
    colon and each comma, [failed] being the length of the failed list of
    the job's summary; and a [Content-Disposition] header whose file name
    is [tiktok_videos_], the job id and [.zip]. *)
Theorem success_response_headers env urls (w0 : World Ydl)
    (file media_type : string) (headers : list (string * string))
    (cleanup : list string) w :
  download_videos download env urls w0 =
    (StreamingResponse file media_type headers cleanup, w) ->
  exists r,
    _run_download_job download env urls w0 = (Ok r, w) /\
    header "X-Download-Summary" headers =
      Some (spaced_summary (total (job_summary r)) (success (job_summary r))
              (length (failed (job_summary r)))) /\
    header "Content-Disposition" headers =
      Some (disposition_of ("tiktok_videos_" +:+ job_id (job_summary r) +:+ ".zip")) /\
    Str.endswith ("tiktok_videos_" +:+ job_id (job_summary r) +:+ ".zip")
                 ("_" +:+ job_id (job_summary r) +:+ ".zip") = true /\
    header "X-Job-Id" headers = Some (job_id (job_summary r)) /\
    job_id (job_summary r) = uuid4_hex env.
Proof.
  unfold download_videos. intros Hresp.
  pose proof (after_fetch_accounts Ydl download env urls w0) as (Hid & _).
  destruct (run_download_job_cases Ydl download env urls w0) as [[_ H]|[_ H]];
    rewrite H in Hresp |- *; [discriminate|].
  injection Hresp as _ _ <- _ <-. eexists. split; [reflexivity|].
  cbn [job_summary].
  split; [simpl; unfold download_summary; rewrite spaced_summary_dumps; reflexivity|].
  split; [simpl; rewrite content_disposition_filename; reflexivity|].
  split; [|split; [reflexivity | exact Hid]].
  apply StrFacts.endswith_spec. exists "tiktok_videos". reflexivity.
Qed.

(** C10. The job raises its error exactly when no entry of its
    directory is a regular file as the fetch loop ends: what lies inside
    a subdirectory is not looked at. The test comes before the report is
    written: when the job raises, the directory is left as the loop left
    it, without a report; when it returns, the report has been added to
    what the loop left; and a directory to which the report has been
    written would always pass the test. *)
Theorem artifacts_checked_before_report env urls (w0 : World Ydl) :
  ((_run_download_job download env urls w0).1 = Raise NoVideoDownloaded <->
   forall name node,
     work_files (after_fetch download env urls w0).2 !! name = Some node ->
     is_file node = false) /\
  ((_run_download_job download env urls w0).1 = Raise NoVideoDownloaded ->
   (_run_download_job download env urls w0).2 = (after_fetch download env urls w0).2) /\
  (forall r, (_run_download_job download env urls w0).1 = Ok r ->
   work_files (_run_download_job download env urls w0).2 =
   <[report_name := RegularFile (ReportJson (job_summary r))]>
     (work_files (after_fetch download env urls w0).2)) /\
  (forall s w, downloaded_files (write_text report_name (ReportJson s) w) <> []).
Proof.
  destruct (run_download_job_cases Ydl download env urls w0) as [[Hnil H]|[Hne H]];
    rewrite H; simpl.
  - split; [split; [intros _; apply downloaded_files_nil, Hnil | reflexivity]|].
    split; [reflexivity|]. split; [discriminate|].
    intros s w Hw. rewrite downloaded_files_nil in Hw.
    specialize (Hw report_name (RegularFile (ReportJson s))).
    simpl in Hw. rewrite lookup_insert_eq in Hw. specialize (Hw eq_refl). discriminate.
  - split; [split; [discriminate|]|].
    { intros Hall. apply downloaded_files_nil in Hall. contradiction. }
    split; [discriminate|]. split; [intros r [= <-]; reflexivity|].
    intros s w Hw. rewrite downloaded_files_nil in Hw.
    specialize (Hw report_name (RegularFile (ReportJson s))).
    simpl in Hw. rewrite lookup_insert_eq in Hw. specialize (Hw eq_refl). discriminate.
Qed.

End JobClaims.

Lemma summary_accounts_for_every_url_witness :
  success Sample.two_of_three + length (failed Sample.two_of_three)
  = total Sample.two_of_three.
Proof.
  refine (proj1 (summary_accounts_for_every_url unit
    (Sample.scripted Sample.second_unavailable) Sample.env Sample.three_videos
    Sample.w0
    (mkJobReturn "/tmp/tiktok_dl_k3x.zip" Sample.two_of_three "/tmp/tiktok_dl_k3x")
    (_run_download_job (Sample.scripted Sample.second_unavailable) Sample.env
       Sample.three_videos Sample.w0).2 _)).
  vm_compute. reflexivity.
Defined.

Lemma failed_fetch_is_recorded_and_loop_goes_on_witness :
  mkFailed (Sample.video 2) "ERROR: Video unavailable" ∈
  failed (fetch_loop (Sample.scripted Sample.second_unavailable)
            ([Sample.video 1] ++ Sample.video 2 :: [Sample.video 3])
            (initial_summary Sample.env Sample.three_videos) Sample.w0).1.
Proof.
  refine (proj2 (proj2 (failed_fetch_is_recorded_and_loop_goes_on unit
    (Sample.scripted Sample.second_unavailable) [Sample.video 1] [Sample.video 3]
    (Sample.video 2) DownloadError "ERROR: Video unavailable"
    (initial_summary Sample.env Sample.three_videos) Sample.w0 _))).
  vm_compute. reflexivity.
Defined.

Lemma empty_workspace_fails_job_witness :
  success (after_fetch (Sample.scripted Sample.nothing_written) Sample.env
             Sample.three_videos Sample.w0).1 = 3 /\
  (download_videos (Sample.scripted Sample.nothing_written) Sample.env
     Sample.three_videos Sample.w0).1 = HTTPException 500 NoVideoDownloaded /\
  (download_videos (Sample.scripted Sample.unavailable) Sample.env
     Sample.three_videos Sample.w0).1 = HTTPException 500 NoVideoDownloaded.
Proof.
  split; [vm_compute; reflexivity|]. split.
  - rewrite (proj1 (empty_workspace_fails_job unit
      (Sample.scripted Sample.nothing_written) Sample.env Sample.three_videos
      Sample.w0)); [reflexivity | vm_compute; reflexivity].
  - rewrite (proj2 (empty_workspace_fails_job unit
      (Sample.scripted Sample.unavailable) Sample.env Sample.three_videos
      Sample.w0)); [reflexivity | | ].
    + intros u w _ Hnil. exact Hnil.
    + apply (bool_decide_unpack _). vm_compute. exact I.
Defined.

(** C7, as stated, fails: every fetch of the batch fails, one of them
    leaves a partial file, and the caller is sent an archive. *)
Lemma all_fetches_failed_archive_returned :
  Forall (λ o, is_returned o = false)
    (outcomes (Sample.scripted Sample.timed_out) [Sample.video 1]
       (mkdtemp Sample.w0)) /\
  (download_videos (Sample.scripted Sample.timed_out) Sample.env
     [Sample.video 1] Sample.w0).1 =
  StreamingResponse "/tmp/tiktok_dl_k3x.zip" "application/zip"
    (response_headers
       (mkSummary "3f2a9c" 1 0
          [mkFailed (Sample.video 1) "The read operation timed out"]
          "2024-05-01T09:00:00+00:00"))
    ["/tmp/tiktok_dl_k3x.zip"; "/tmp/tiktok_dl_k3x"].
Proof.
  split; [apply (bool_decide_unpack _); vm_compute; exact I | vm_compute; reflexivity].
Qed.

Lemma success_response_headers_witness :
  exists r,
    _run_download_job (Sample.scripted Sample.second_unavailable) Sample.env
      Sample.three_videos Sample.w0 =
    (Ok r, (download_videos (Sample.scripted Sample.second_unavailable)
              Sample.env Sample.three_videos Sample.w0).2) /\
    header "X-Download-Summary" (response_headers Sample.two_of_three) =
      Some (spaced_summary (total (job_summary r)) (success (job_summary r))
              (length (failed (job_summary r)))) /\
    header "Content-Disposition" (response_headers Sample.two_of_three) =
      Some (disposition_of ("tiktok_videos_" +:+ job_id (job_summary r) +:+ ".zip")) /\
    Str.endswith ("tiktok_videos_" +:+ job_id (job_summary r) +:+ ".zip")
                 ("_" +:+ job_id (job_summary r) +:+ ".zip") = true /\
    header "X-Job-Id" (response_headers Sample.two_of_three) =
      Some (job_id (job_summary r)) /\
    job_id (job_summary r) = uuid4_hex Sample.env.
Proof.
  apply (success_response_headers unit (Sample.scripted Sample.second_unavailable)
           Sample.env Sample.three_videos Sample.w0
           "/tmp/tiktok_dl_k3x.zip" "application/zip"
           (response_headers Sample.two_of_three)
           ["/tmp/tiktok_dl_k3x.zip"; "/tmp/tiktok_dl_k3x"]).
  vm_compute. reflexivity.
Defined.

(** C9, as stated, fails: for the batch of the example the header is
    not the compact object. *)
Lemma summary_header_is_not_compact :
  header "X-Download-Summary"
    (headers_of (download_videos (Sample.scripted Sample.second_unavailable)
                   Sample.env Sample.three_videos Sample.w0).1)
  = Some (spaced_summary 3 2 1) /\
  spaced_summary 3 2 1 <> compact_summary 3 2 1.
Proof.
  split; [vm_compute; reflexivity | vm_compute; discriminate].
Qed.

Lemma artifacts_checked_before_report_witness :
  (_run_download_job (Sample.scripted Sample.into_subdirectory) Sample.env
     Sample.three_videos Sample.w0).1 = Raise NoVideoDownloaded.
Proof.
  apply (proj1 (artifacts_checked_before_report unit
    (Sample.scripted Sample.into_subdirectory) Sample.env Sample.three_videos
    Sample.w0)).
  apply downloaded_files_nil. vm_compute. reflexivity.
Defined.

(** ** The cleanup task *)

Section CleanupClaims.

Variables (FS Exc : Type).
Variable path_is_dir : string -> Cmd FS Exc bool.
Variable rmtree : string -> Cmd FS Exc unit.
Variable path_exists : string -> Cmd FS Exc bool.
Variable unlink : string -> Cmd FS Exc unit.

(** C8. [_cleanup_paths] returns normally on every list of paths and
    every file system, and the file system it leaves is the one obtained
    by making the deletion attempt on each path of the list in turn,
    whether the attempts before it raised or not. *)
Theorem cleanup_paths_never_raises (paths : list string) (fs : FS) :
  _cleanup_paths FS Exc path_is_dir rmtree path_exists unlink paths fs =
  (Ok tt, fold_left (attempt FS Exc path_is_dir rmtree path_exists unlink) paths fs).
Proof.
  revert fs. induction paths as [|p paths IH]; intros fs; [reflexivity|].
  unfold _cleanup_paths in IH |- *. simpl. unfold bind at 1, try_except at 1.
  unfold attempt at 2.
  destruct (delete_path FS Exc path_is_dir rmtree path_exists unlink p fs)
    as [[[]|e] fs']; simpl; apply IH.
Qed.

End CleanupClaims.

(** The archive cannot be removed; the job's directory is removed all
    the same. *)
Lemma cleanup_paths_never_raises_witness :
  _cleanup_paths Sample.Disk Sample.OSError Sample.disk_is_dir Sample.disk_rmtree
    Sample.disk_exists Sample.disk_unlink
    ["/tmp/locked.zip"; "/tmp/tiktok_dl_k3x"] Sample.disk =
  (Ok tt, Sample.mkDisk {["/tmp/locked.zip"]} ∅).
Proof.
  rewrite cleanup_paths_never_raises. vm_compute. reflexivity.
Defined.

(** * Further properties *)

(** ** More on the validator *)

Section ValidatorMore.

Variable strip : string -> string.
Variable lower : string -> string.
Variable urlparse : string -> result ValueError ParseResult.

Implicit Types (urls cleaned : list string).

(** An entry is what [strip] leaves of an element of the request, and
    is not empty. *)
Lemma elem_of_entries urls (u : string) :
  u ∈ entries strip urls <->
  u <> EmptyString /\ exists raw, raw ∈ urls /\ u = strip raw.
Proof.
  unfold entries. rewrite list_elem_of_filter, list_elem_of_fmap.
  assert (Hne : Str.is_empty u = false <-> u <> EmptyString)
    by (destruct u; simpl; split; congruence).
  rewrite Hne. split.
  - intros [H (raw & Hu & Hraw)]. split; [exact H|]. exists raw. auto.
  - intros [H (raw & Hraw & Hu)]. split; [exact H|]. exists raw. auto.
Qed.

Lemma first_seen_NoDup (l : list string) : NoDup l -> first_seen l = l.
Proof.
  induction 1 as [|x l Hx _ IH]; [reflexivity|]. simpl. rewrite IH. f_equal.
  clear IH. induction l as [|y l IHl]; [reflexivity|].
  apply not_elem_of_cons in Hx as [Hne Hx].
  rewrite filter_cons_True; [|intros ->; apply Hne; reflexivity].
  f_equal. apply IHl. exact Hx.
Qed.

(** What a successful validation tells. *)
Lemma validate_urls_Ok_inv urls cleaned :
  validate_urls strip lower urlparse urls = Ok cleaned ->
  Forall (accepted lower urlparse) (entries strip urls) /\
  cleaned = first_seen (entries strip urls) /\
  1 <= length cleaned <= MAX_URLS.
Proof.
  intros Hok.
  assert (Hall : Forall (accepted lower urlparse) (entries strip urls)).
  { unfold validate_urls in Hok.
    destruct (validate_loop strip lower urlparse urls [] ∅) as [out|e] eqn:E;
      [|discriminate].
    eapply validate_loop_Ok_accepted. exact E. }
  split; [exact Hall|].
  rewrite (validate_urls_accepted _ _ _ _ Hall) in Hok. cbv zeta in Hok.
  destruct (Nat.eqb_spec (length (first_seen (entries strip urls))) 0); [discriminate|].
  destruct (Nat.ltb_spec MAX_URLS (length (first_seen (entries strip urls))));
    [discriminate|].
  injection Hok as <-. split; [reflexivity | lia].
Qed.

(** X1. A request whose non-blank entries are all accepted, with at
    least one of them and at most [MAX_URLS] different ones, is
    validated: the result is the list of its trimmed entries, each at its
    first occurrence. *)
Theorem validate_urls_succeeds urls :
  Forall (accepted lower urlparse) (entries strip urls) ->
  entries strip urls <> [] ->
  length (remove_dups (entries strip urls)) <= MAX_URLS ->
  validate_urls strip lower urlparse urls = Ok (first_seen (entries strip urls)).
Proof.
  intros Hall Hne Hmax. rewrite (validate_urls_accepted _ _ _ _ Hall). cbv zeta.
  rewrite <- first_seen_length in Hmax.
  destruct (Nat.eqb_spec (length (first_seen (entries strip urls))) 0) as [H0|_].
  - destruct (entries strip urls); [contradiction | discriminate].
  - destruct (Nat.ltb_spec MAX_URLS (length (first_seen (entries strip urls))));
      [lia | reflexivity].
Qed.

(** X2. A request with no entry, or whose entries [str.strip] all
    leaves empty, is refused with the error that asks for at least one
    URL; the parser is not consulted. *)
Theorem validate_urls_blank_request urls :
  Forall (λ raw, strip raw = EmptyString) urls ->
  validate_urls strip lower urlparse urls = Raise NoUrlGiven.
Proof.
  intros Hblank.
  assert (He : entries strip urls = []).
  { induction Hblank as [|raw urls Hraw _ IH]; [reflexivity|].
    rewrite entries_cons, Hraw. exact IH. }
  rewrite validate_urls_accepted; rewrite He; [reflexivity | constructor].
Qed.

(** X3. A validated list has between one and [MAX_URLS] URLs, and each
    of them is not empty, is what [str.strip] leaves of an entry of the
    request, and is accepted by [_ensure_valid_url]. *)
Theorem validated_list_invariants urls cleaned :
  validate_urls strip lower urlparse urls = Ok cleaned ->
  1 <= length cleaned <= MAX_URLS /\
  Forall (λ u, u <> EmptyString /\ (exists raw, raw ∈ urls /\ u = strip raw) /\
               accepted lower urlparse u) cleaned.
Proof.
  intros Hok. apply validate_urls_Ok_inv in Hok as (Hall & -> & Hlen).
  split; [exact Hlen|]. apply Forall_forall.
  intros u Hu. apply (proj1 (elem_of_first_seen _ _)) in Hu.
  pose proof (proj1 (Forall_forall _ _) Hall u Hu) as Hacc.
  apply elem_of_entries in Hu as [Hne Hraw]. auto.
Qed.

Lemma validate_loop_entries urls cleaned (seen : gset string) :
  Forall (λ raw, strip (strip raw) = strip raw) urls ->
  validate_loop strip lower urlparse urls cleaned seen =
  validate_loop strip lower urlparse (entries strip urls) cleaned seen.
Proof.
  intros Hidem. revert cleaned seen.
  induction Hidem as [|raw urls Hraw _ IH]; intros cleaned seen; [reflexivity|].
  rewrite entries_cons. simpl.
  destruct (Str.is_empty (strip raw)) eqn:E; [apply IH|].
  simpl. rewrite Hraw, E.
  destruct (_ensure_valid_url lower urlparse (strip raw)) as [n|e]; [|reflexivity].
  destruct (decide (n ∈ seen)); apply IH.
Qed.

(** X5. Where [str.strip] leaves its own results alone, as it does,
    the outcome of validation, result or error, depends on the request
    only through its trimmed non-blank entries: blank entries and
    surrounding white space change nothing. *)
Theorem validate_urls_only_entries urls :
  Forall (λ raw, strip (strip raw) = strip raw) urls ->
  validate_urls strip lower urlparse urls =
  validate_urls strip lower urlparse (entries strip urls).
Proof.
  intros Hidem. unfold validate_urls.
  rewrite (validate_loop_entries urls [] ∅ Hidem). reflexivity.
Qed.

(** A list of non-empty strings that [strip] leaves alone is its own
    list of entries. *)
Lemma entries_trimmed (l : list string) :
  Forall (λ u, strip u = u /\ u <> EmptyString) l -> entries strip l = l.
Proof.
  induction 1 as [|u l [Hs Hne] _ IH]; [reflexivity|].
  rewrite entries_cons, Hs, IH. destruct u; [contradiction | reflexivity].
Qed.

(** X4. Where [str.strip] leaves its own results alone, validation is
    idempotent: a validated list is validated to itself. *)
Theorem validate_urls_idempotent urls cleaned :
  Forall (λ raw, strip (strip raw) = strip raw) urls ->
  validate_urls strip lower urlparse urls = Ok cleaned ->
  validate_urls strip lower urlparse cleaned = Ok cleaned.
Proof.
  intros Hidem Hok.
  apply validate_urls_Ok_inv in Hok as (Hall & Hc & Hlen).
  assert (Hent : entries strip cleaned = cleaned).
  { apply entries_trimmed. rewrite Hc. apply Forall_forall. intros u Hu.
    apply (proj1 (elem_of_first_seen _ _)), elem_of_entries in Hu
      as (Hne & raw & Hraw & ->).
    split; [|exact Hne]. exact (proj1 (Forall_forall _ _) Hidem raw Hraw). }
  assert (Hnd : NoDup cleaned) by (rewrite Hc; apply NoDup_first_seen).
  assert (Hacc : Forall (accepted lower urlparse) cleaned).
  { rewrite Hc. apply Forall_forall. intros u Hu.
    apply (proj1 (elem_of_first_seen _ _)) in Hu.
    exact (proj1 (Forall_forall _ _) Hall u Hu). }
  rewrite validate_urls_accepted; rewrite Hent; [|exact Hacc].
  cbv zeta. rewrite (first_seen_NoDup _ Hnd).
  destruct (Nat.eqb_spec (length cleaned) 0); [lia|].
  destruct (Nat.ltb_spec MAX_URLS (length cleaned)); [lia | reflexivity].
Qed.

End ValidatorMore.

Lemma validate_urls_succeeds_witness :
  validate_urls Str.strip Str.ascii_lower Urllib.urlparse Sample.padded_request =
  Ok ["https://www.tiktok.com/@a/video/1"; "https://vm.tiktok.com/ZM1/"].
Proof.
  rewrite (validate_urls_succeeds Str.strip Str.ascii_lower Urllib.urlparse
             Sample.padded_request).
  - vm_compute. reflexivity.
  - apply (bool_decide_unpack _). vm_compute. exact I.
  - vm_compute. discriminate.
  - vm_compute. lia.
Defined.

Lemma validate_urls_blank_request_witness :
  validate_urls Str.strip Str.ascii_lower Urllib.urlparse Sample.blank_request
  = Raise NoUrlGiven.
Proof.
  apply validate_urls_blank_request.
  apply (bool_decide_unpack _). vm_compute. exact I.
Defined.

Lemma validated_list_invariants_witness :
  1 <= length ["https://www.tiktok.com/@a/video/1"; "https://vm.tiktok.com/ZM1/"]
    <= MAX_URLS.
Proof.
  refine (proj1 (validated_list_invariants Str.strip Str.ascii_lower
                   Urllib.urlparse Sample.padded_request _ _)).
  vm_compute. reflexivity.
Defined.

Lemma validate_urls_only_entries_witness :
  validate_urls Str.strip Str.ascii_lower Urllib.urlparse Sample.padded_request =
  validate_urls Str.strip Str.ascii_lower Urllib.urlparse
    (entries Str.strip Sample.padded_request).
Proof.
  apply validate_urls_only_entries.
  apply (bool_decide_unpack _). vm_compute. exact I.
Defined.

Lemma validate_urls_idempotent_witness :
  validate_urls Str.strip Str.ascii_lower Urllib.urlparse
    ["https://www.tiktok.com/@a/video/1"; "https://vm.tiktok.com/ZM1/"] =
  Ok ["https://www.tiktok.com/@a/video/1"; "https://vm.tiktok.com/ZM1/"].
Proof.
  apply (validate_urls_idempotent Str.strip Str.ascii_lower Urllib.urlparse
           Sample.padded_request).
  - apply (bool_decide_unpack _). vm_compute. exact I.
  - vm_compute. reflexivity.
Defined.

(** ** More on the job and its response *)

Section JobMore.

Variable Ydl : Type.
Variable download : string -> World Ydl -> Outcome * World Ydl.

Implicit Types (urls : list string) (w : World Ydl) (env : JobEnv).


Lemma recorded_failures_sublist urls (os : list Outcome) :
  map url (recorded_failures urls os) `sublist_of` urls.
Proof.
  revert os. induction urls as [|u urls IH]; intros os.
  - destruct os; constructor.
  - destruct os as [|o os]; [apply sublist_nil_l|].
    rewrite recorded_failures_cons. destruct o as [|cls msg].
    + apply sublist_cons, IH.
    + simpl. apply sublist_skip, IH.
Qed.

(** X7. When the fetch loop of a job is over, the URLs of the failed
    list are, in this order, a subsequence of the batch, and the counts
    of successes and of failures are each at most the number of URLs. *)
Theorem failed_urls_in_input_order env urls (w0 : World Ydl) :
  map url (failed (after_fetch download env urls w0).1) `sublist_of` urls /\
  success (after_fetch download env urls w0).1 <= length urls /\
  length (failed (after_fetch download env urls w0).1) <= length urls.
Proof.
  destruct (after_fetch_accounts Ydl download env urls w0) as (_ & _ & Hs & Hf).
  pose proof (returned_plus_recorded urls (outcomes download urls (mkdtemp w0))
                (outcomes_length Ydl download urls (mkdtemp w0))) as Hsum.
  rewrite Hs, Hf. split; [apply recorded_failures_sublist | lia].
Qed.

End JobMore.

(** ** Streaming the archive in chunks *)

Section Chunks.

(** The largest [ssize_t], and the largest buffer a read is granted,
    which is no larger. *)
Variables ssize_max alloc_max : Z.
Hypothesis alloc_fits : (alloc_max <= ssize_max)%Z.

Implicit Types (rest contents data : list Byte.byte) (chunks : list (list Byte.byte)).

Lemma file_read_positive (n : nat) rest :
  0 < n -> (Z.of_nat n <= alloc_max)%Z ->
  file_read ssize_max alloc_max (Z.of_nat n) rest = Ok (take n rest, drop n rest).
Proof.
  intros Hn Hmax. unfold file_read.
  destruct (Z.ltb_spec (Z.of_nat n) (- ssize_max - 1)); [lia|].
  destruct (Z.ltb_spec ssize_max (Z.of_nat n)); [lia|]. simpl.
  destruct (Z.ltb_spec (Z.of_nat n) (-1)); [lia|].
  destruct (Z.eqb_spec (Z.of_nat n) (-1)); [lia|].
  destruct (Z.ltb_spec alloc_max (Z.of_nat n)); [lia|].
  rewrite Nat2Z.id. reflexivity.
Qed.

(** With a positive chunk size that fits the loop ends within one read
    more than there are bytes left, without an error, and its chunks are
    what was left, cut into pieces of the chunk size, the last one
    possibly shorter. *)
Lemma iter_file_chunks_loop_positive (n fuel : nat) rest :
  0 < n -> (Z.of_nat n <= alloc_max)%Z -> length rest < fuel ->
  exists chunks,
    iter_file_chunks_loop fuel ssize_max alloc_max (Z.of_nat n) rest = Some (chunks, None) /\
    concat chunks = rest /\
    Forall (λ c, 0 < length c <= n) chunks /\
    (forall (i : nat) c, chunks !! i = Some c -> S i < length chunks -> length c = n).
Proof.
  intros Hn Hmax. revert rest. induction fuel as [|fuel IH]; intros rest Hfuel; [lia|].
  simpl. rewrite (file_read_positive n rest Hn Hmax).
  destruct (take n rest) as [|b data] eqn:Htake.
  - assert (rest = []) as ->.
    { destruct rest; [reflexivity|]. destruct n; [lia | discriminate]. }
    exists []. repeat split; [constructor | intros i c Hi; discriminate].
  - assert (Hlen : length (take n rest) = length (b :: data)) by (rewrite Htake; reflexivity).
    rewrite length_take in Hlen. simpl in Hlen.
    destruct (IH (drop n rest)) as (chunks & Hloop & Hcat & Hall & Hfull).
    { rewrite length_drop. lia. }
    rewrite Hloop. exists ((b :: data) :: chunks).
    split; [reflexivity|]. split; [|split].
    + rewrite concat_cons, Hcat, <- Htake. apply take_drop.
    + constructor; [simpl; lia | exact Hall].
    + intros [|i] c Hi Hlast; simpl in Hi, Hlast.
      * injection Hi as <-.
        destruct chunks as [|c0 chunks]; [simpl in Hlast; lia|].
        apply Forall_cons in Hall as [Hc0 _].
        assert (Hd : length (drop n rest) <> 0).
        { rewrite <- Hcat. simpl. rewrite length_app. lia. }
        rewrite length_drop in Hd. simpl. lia.
      * apply (Hfull i c Hi). lia.
Qed.

(** X10. With a positive chunk size for which a buffer is granted the
    generator ends without an error and yields chunks whose concatenation
    is the contents of the file; no chunk is empty or longer than the
    chunk size, and every chunk but the last has exactly that size. *)
Theorem iter_file_chunks_positive contents (chunk_size : Z) :
  (0 < chunk_size <= alloc_max)%Z ->
  exists chunks,
    _iter_file_chunks ssize_max alloc_max contents chunk_size = Some (chunks, None) /\
    concat chunks = contents /\
    Forall (λ c, 0 < length c <= Z.to_nat chunk_size) chunks /\
    (forall (i : nat) c, chunks !! i = Some c -> S i < length chunks ->
       length c = Z.to_nat chunk_size).
Proof.
  intros Hpos. unfold _iter_file_chunks.
  pose proof (iter_file_chunks_loop_positive (Z.to_nat chunk_size)
                (S (length contents)) contents ltac:(lia) ltac:(lia) ltac:(lia)) as H.
  rewrite Z2Nat.id in H by lia. exact H.
Qed.


End Chunks.

Lemma iter_file_chunks_positive_witness :
  exists chunks,
    _iter_file_chunks (2 ^ 63 - 1) (2 ^ 40) Sample.ten_bytes 4 = Some (chunks, None) /\
    concat chunks = Sample.ten_bytes /\
    Forall (λ c, 0 < length c <= Z.to_nat 4) chunks /\
    (forall (i : nat) c, chunks !! i = Some c -> S i < length chunks ->
       length c = Z.to_nat 4).
Proof. apply iter_file_chunks_positive; lia. Defined.


Example iter_file_chunks_ten_by_four :
  _iter_file_chunks (2 ^ 63 - 1) (2 ^ 40) Sample.ten_bytes 4 =
  Some ([String.list_byte_of_string "0123"; String.list_byte_of_string "4567";
         String.list_byte_of_string "89"], None).
Proof. vm_compute. reflexivity. Qed.

(** ** The options of the downloader *)

Section OptionsFacts.

Variable expanduser : string -> string.
Variable file_exists : string -> bool.

Implicit Types (settings : Settings) (output_template : string).




End OptionsFacts.

Example cookies_option_found :
  (_build_yt_dlp_options Sample.home_expanduser Sample.only_cookies_txt
     (load_settings {["TIKTOK_COOKIES_PATH" := "~/cookies.txt"]})
     "/tmp/tiktok_dl_k3x/%(id)s_%(creator)s.%(ext)s").1 !! "cookies"
  = Some (OptStr "/home/app/cookies.txt").
Proof. vm_compute. reflexivity. Qed.

Example cookies_option_missing :
  (_build_yt_dlp_options Sample.home_expanduser Sample.only_cookies_txt
     (load_settings {["TIKTOK_COOKIES_PATH" := "~/none.txt"]})
     "/tmp/tiktok_dl_k3x/%(id)s_%(creator)s.%(ext)s").2
  = ["/home/app/none.txt"].
Proof. vm_compute. reflexivity. Qed.

(** ** What the cleanup task removes *)

Section CleanupRemoves.

Variables (FS Exc : Type).
Variable path_is_dir : string -> Cmd FS Exc bool.
Variable rmtree : string -> Cmd FS Exc unit.
Variable path_exists : string -> Cmd FS Exc bool.
Variable unlink : string -> Cmd FS Exc unit.

Lemma cleanup_paths_cons (p : string) (paths : list string) (fs : FS) :
  _cleanup_paths FS Exc path_is_dir rmtree path_exists unlink (p :: paths) fs =
  _cleanup_paths FS Exc path_is_dir rmtree path_exists unlink paths
    (attempt FS Exc path_is_dir rmtree path_exists unlink fs p).
Proof.
  unfold _cleanup_paths. simpl. unfold bind at 1, try_except at 1, attempt.
  destruct (delete_path FS Exc path_is_dir rmtree path_exists unlink p fs)
    as [[[]|e] fs']; reflexivity.
Qed.

(** Which paths exist on a file system. *)
Variable present : FS -> string -> bool.

(** The two tests answer without changing the file system, [exists]
    truthfully; the two removals succeed, remove their path and create
    nothing. *)
Hypothesis is_dir_reads : forall p fs, exists b, path_is_dir p fs = (Ok b, fs).
Hypothesis exists_reads : forall p fs, path_exists p fs = (Ok (present fs p), fs).
Hypothesis rmtree_removes : forall p fs, exists fs',
  rmtree p fs = (Ok tt, fs') /\ present fs' p = false /\
  forall q, present fs' q = true -> present fs q = true.
Hypothesis unlink_removes : forall p fs, exists fs',
  unlink p fs = (Ok tt, fs') /\ present fs' p = false /\
  forall q, present fs' q = true -> present fs q = true.

Lemma attempt_removes (p : string) (fs : FS) :
  present (attempt FS Exc path_is_dir rmtree path_exists unlink fs p) p = false /\
  forall q, present (attempt FS Exc path_is_dir rmtree path_exists unlink fs p) q = true ->
            present fs q = true.
Proof.
  unfold attempt, delete_path, bind.
  destruct (is_dir_reads p fs) as [b ->]. destruct b.
  - destruct (rmtree_removes p fs) as (fs' & -> & Hp & Hq). auto.
  - rewrite exists_reads. destruct (present fs p) eqn:E.
    + destruct (unlink_removes p fs) as (fs' & -> & Hp & Hq). auto.
    + simpl. auto.
Qed.

(** X14. On a file system whose tests and removals work, none of the
    paths given to [_cleanup_paths] exists when it returns, and no path
    exists afterwards that did not exist before. *)
Theorem cleanup_removes_listed_paths (paths : list string) (fs : FS) :
  (forall p, p ∈ paths ->
     present (_cleanup_paths FS Exc path_is_dir rmtree path_exists unlink paths fs).2 p
     = false) /\
  (forall q,
     present (_cleanup_paths FS Exc path_is_dir rmtree path_exists unlink paths fs).2 q
     = true -> present fs q = true).
Proof.
  revert fs. induction paths as [|p paths IH]; intros fs.
  - split; [intros p Hp; apply elem_of_nil in Hp; contradiction | auto].
  - rewrite cleanup_paths_cons.
    destruct (IH (attempt FS Exc path_is_dir rmtree path_exists unlink fs p))
      as [Hgone Hmono].
    destruct (attempt_removes p fs) as [Hp Hq].
    split.
    + intros p' Hin. apply elem_of_cons in Hin as [Heq|Hin]; [|apply Hgone, Hin].
      subst p'. apply not_true_is_false. intros E.
      apply Hmono in E. congruence.
    + intros q Hpres. apply Hq, Hmono, Hpres.
Qed.

End CleanupRemoves.

Lemma cleanup_removes_listed_paths_witness :
  Sample.disk_present
    (_cleanup_paths Sample.Disk Sample.OSError Sample.disk_is_dir Sample.disk_remove
       Sample.disk_exists Sample.disk_remove
       ["/tmp/tiktok_dl_k3x.zip"; "/tmp/tiktok_dl_k3x"] Sample.job_disk).2
    "/tmp/tiktok_dl_k3x" = false.
Proof.
  refine (proj1 (cleanup_removes_listed_paths Sample.Disk Sample.OSError
    Sample.disk_is_dir Sample.disk_remove Sample.disk_exists Sample.disk_remove
    Sample.disk_present _ _ _ _ _ _) _ _).
  - intros p fs. eexists. reflexivity.
  - intros p fs. reflexivity.
  - intros p fs. eexists. split; [reflexivity|].
    unfold Sample.disk_present. simpl. split.
    + apply bool_decide_eq_false.
      rewrite elem_of_union, !elem_of_difference, elem_of_singleton. tauto.
    + intros q Hq. apply bool_decide_eq_true in Hq. apply bool_decide_eq_true.
      rewrite elem_of_union, !elem_of_difference in Hq. rewrite elem_of_union. tauto.
  - intros p fs. eexists. split; [reflexivity|].
    unfold Sample.disk_present. simpl. split.
    + apply bool_decide_eq_false.
      rewrite elem_of_union, !elem_of_difference, elem_of_singleton. tauto.
    + intros q Hq. apply bool_decide_eq_true in Hq. apply bool_decide_eq_true.
      rewrite elem_of_union, !elem_of_difference in Hq. rewrite elem_of_union. tauto.
  - right. left.
Defined.

(** ** From the validated request to the summary *)

Section ValidatedJob.

Variable strip : string -> string.
Variable lower : string -> string.
Variable urlparse : string -> result ValueError ParseResult.
Variable Ydl : Type.
Variable download : string -> World Ydl -> Outcome * World Ydl.

(** X15. For a job run on a validated request, the total of the
    returned summary is between one and [MAX_URLS], and its failed list
    names no URL twice and only entries of the request as [str.strip]
    leaves them. *)
Theorem validated_job_counts (env : JobEnv) (urls cleaned : list string)
    (w0 w : World Ydl) (r : JobReturn) :
  validate_urls strip lower urlparse urls = Ok cleaned ->
  _run_download_job download env cleaned w0 = (Ok r, w) ->
  1 <= total (job_summary r) <= MAX_URLS /\
  NoDup (map url (failed (job_summary r))) /\
  (forall f, f ∈ failed (job_summary r) -> url f ∈ entries strip urls).
Proof.
  intros Hval Hrun.
  apply validate_urls_Ok_inv in Hval as (_ & Hc & Hlen).
  destruct (run_download_job_cases Ydl download env cleaned w0) as [[_ H]|[_ H]];
    rewrite H in Hrun; [discriminate|].
  injection Hrun as <- _. simpl.
  destruct (after_fetch_accounts Ydl download env cleaned w0) as (_ & Ht & _ & Hf).
  pose proof (recorded_failures_sublist cleaned
                (outcomes download cleaned (mkdtemp w0))) as Hsub.
  rewrite <- Hf in Hsub.
  split; [rewrite Ht; exact Hlen|]. split.
  - eapply sublist_NoDup; [|exact Hsub]. rewrite Hc. apply NoDup_first_seen.
  - intros f Hin. apply elem_of_first_seen. rewrite <- Hc.
    eapply elem_of_sublist; [|exact Hsub].
    apply list_elem_of_fmap. exists f. auto.
Qed.

End ValidatedJob.

Lemma validated_job_counts_witness :
  1 <= total (mkSummary "3f2a9c" 2 2 [] "2024-05-01T09:00:00+00:00") <= MAX_URLS.
Proof.
  refine (proj1 (validated_job_counts Str.strip Str.ascii_lower Urllib.urlparse unit
    (Sample.scripted Sample.second_unavailable) Sample.env Sample.padded_request
    ["https://www.tiktok.com/@a/video/1"; "https://vm.tiktok.com/ZM1/"]
    Sample.w0
    (_run_download_job (Sample.scripted Sample.second_unavailable) Sample.env
       ["https://www.tiktok.com/@a/video/1"; "https://vm.tiktok.com/ZM1/"]
       Sample.w0).2
    (mkJobReturn "/tmp/tiktok_dl_k3x.zip"
       (mkSummary "3f2a9c" 2 2 [] "2024-05-01T09:00:00+00:00")
       "/tmp/tiktok_dl_k3x") _ _)).
  - vm_compute. reflexivity.
  - vm_compute. reflexivity.
Defined.
